(** * The IoC container and provider registry of go-laravel

    A shallow embedding of [framework/container/container.go],
    [framework/container/contextual.go] and
    [framework/container/provider.go].

    Modelling decisions.
    - Go's [any] values are the inductive [value]; a freshly allocated
      object is a pointer [VPtr] drawn from a counter, so that identity of
      instances is equality of pointers.
    - The Go maps of the container are [gmap]s keyed by strings.
    - A Go panic is the outcome [Panicked]: the state reached at the moment
      of the panic is kept, as a caller that recovers would observe it.
    - Factories are closures over the container.  User closures are terms
      of a small command language ([factory], [action]) whose commands are
      the public operations of the container; the closure installed by
      [interceptDeferred] is the constructor [Deferred] of [Factory], and
      a nil func is [Nil].
    - Extenders are pure functions on values.  Observer callbacks are named
      by a number and record their invocation in the trace of the state, as
      do the [Register] and [Boot] methods of providers.
    - Recursion between [make] and the factories it runs is bounded by
      fuel; [OutOfFuel] stands for a resolution that never returns.
    - The mutex [mu] is modelled where it decides what a single caller
      sees.  Every operation releases it before it calls back into the
      container ([bind] and [Extend] unlock before [fireRebound] and
      [make]), so for them the lock operations leave no trace in the
      sequential semantics.  [Instance] is the exception: it calls
      [fireRebound] while it holds the write lock, and that call blocks for
      ever; the outcome [Blocked] stands for it. *)

From Stdlib Require Import String List ZArith Lia Bool.
From stdpp Require Import base option list gmap strings.
Import ListNotations.
Open Scope string_scope.
Open Scope list_scope.

(** ** Values *)

Inductive value : Type :=
| VNil
| VInt (z : Z)
| VStr (s : string)
| VPtr (addr : nat) (tag : string)
| VContainer
| VWrap (tag : string) (inner : value).

(** [extender]: [func(instance any, c *Container) any], restricted to
    decorators that do not touch the container. *)
Definition extender : Type := value -> value.

(** ** Closures *)

Inductive factory : Type :=
| FReturn (v : value)
| FNew (tag : string)
| FPanic (msg : string)
| FMake (abstract : string)
| FDo (a : action) (k : factory)
with action : Type :=
| ABind (abstract : string) (f : factory)
| ASingleton (abstract : string) (f : factory)
| AInstance (abstract : string) (v : value)
| AAlias (abstract alias : string)
| AExtend (abstract : string) (fn : extender)
| AGive (concrete needs : string) (f : factory)
| AGiveValue (concrete needs : string) (v : value)
| AMake (abstract : string)
| AForget (abstract : string)
| AFlush
| ARebinding (abstract : string) (cb : nat)
| AAfterResolving (cb : nat).

(** [ServiceProvider]: the four methods of the interface; [pid] is the
    identity of the provider object (the key of [registered]). *)
Record ServiceProvider : Type := mkProvider {
  pid : nat;
  IsDeferred : bool;
  Provides : list string;
  RegisterBody : list action;
  BootBody : list action
}.

(** [Factory]: [func(c *Container) any]. *)
Inductive Factory : Type :=
| Nil
| Closure (body : factory)
| Deferred (provider : ServiceProvider) (abs : string).

Record binding : Type := mkBinding {
  b_factory : Factory;
  b_singleton : bool
}.

(** ** State *)

Record Container : Type := mkContainer {
  bindings : gmap string binding;
  instances : gmap string value;
  aliases : gmap string string;
  extenders : gmap string (list extender);
  tags : gmap string (list string);
  contextual : gmap string (gmap string Factory);
  reboundCallbacks : gmap string (list nat);
  afterResolving : list nat;
  buildStack : list string
}.

Record ProviderRegistry : Type := mkRegistry {
  eager : list ServiceProvider;
  deferred : gmap string ServiceProvider;
  booted : bool;
  registered : gset nat
}.

Inductive event : Type :=
| EvRebound (cb : nat) (instance : value)
| EvResolved (cb : nat) (abstract : string) (instance : value)
| EvRegister (provider : nat)
| EvBoot (provider : nat).

Record World : Type := mkWorld {
  app : Container;
  reg : ProviderRegistry;
  heap : nat;
  trace : list event
}.

Inductive failure : Type :=
| UnregisteredAbstract (abstract : string)
| SelfAlias (abstract : string)
| NilFactory
| SliceBounds
| FactoryPanic (msg : string).

Inductive outcome : Type :=
| Ok (v : value)
| Panicked (e : failure)
| OutOfFuel
| Blocked.

Definition result : Type := World * outcome.

Definition and_then (r : result) (k : World -> value -> result) : result :=
  match r with
  | (w, Ok v) => k w v
  | (w, Panicked e) => (w, Panicked e)
  | (w, OutOfFuel) => (w, OutOfFuel)
  | (w, Blocked) => (w, Blocked)
  end.

Notation "r >>= k" := (and_then r k) (at level 50, left associativity).

(** Field updates. *)

Definition set_bindings (f : gmap string binding -> gmap string binding) (c : Container) :=
  mkContainer (f (bindings c)) (instances c) (aliases c) (extenders c) (tags c)
    (contextual c) (reboundCallbacks c) (afterResolving c) (buildStack c).
Definition set_instances (f : gmap string value -> gmap string value) (c : Container) :=
  mkContainer (bindings c) (f (instances c)) (aliases c) (extenders c) (tags c)
    (contextual c) (reboundCallbacks c) (afterResolving c) (buildStack c).
Definition set_aliases (f : gmap string string -> gmap string string) (c : Container) :=
  mkContainer (bindings c) (instances c) (f (aliases c)) (extenders c) (tags c)
    (contextual c) (reboundCallbacks c) (afterResolving c) (buildStack c).
Definition set_extenders
    (f : gmap string (list extender) -> gmap string (list extender)) (c : Container) :=
  mkContainer (bindings c) (instances c) (aliases c) (f (extenders c)) (tags c)
    (contextual c) (reboundCallbacks c) (afterResolving c) (buildStack c).
Definition set_contextual
    (f : gmap string (gmap string Factory) -> gmap string (gmap string Factory))
    (c : Container) :=
  mkContainer (bindings c) (instances c) (aliases c) (extenders c) (tags c)
    (f (contextual c)) (reboundCallbacks c) (afterResolving c) (buildStack c).
Definition set_reboundCallbacks
    (f : gmap string (list nat) -> gmap string (list nat)) (c : Container) :=
  mkContainer (bindings c) (instances c) (aliases c) (extenders c) (tags c)
    (contextual c) (f (reboundCallbacks c)) (afterResolving c) (buildStack c).
Definition set_afterResolving (f : list nat -> list nat) (c : Container) :=
  mkContainer (bindings c) (instances c) (aliases c) (extenders c) (tags c)
    (contextual c) (reboundCallbacks c) (f (afterResolving c)) (buildStack c).
Definition set_buildStack (f : list string -> list string) (c : Container) :=
  mkContainer (bindings c) (instances c) (aliases c) (extenders c) (tags c)
    (contextual c) (reboundCallbacks c) (afterResolving c) (f (buildStack c)).

Definition on_app (f : Container -> Container) (w : World) : World :=
  mkWorld (f (app w)) (reg w) (heap w) (trace w).
Definition on_reg (f : ProviderRegistry -> ProviderRegistry) (w : World) : World :=
  mkWorld (app w) (f (reg w)) (heap w) (trace w).
Definition emit (evs : list event) (w : World) : World :=
  mkWorld (app w) (reg w) (heap w) (trace w ++ evs).
Definition alloc (w : World) : World :=
  mkWorld (app w) (reg w) (S (heap w)) (trace w).

Definition ok (w : World) : result := (w, Ok VNil).

(** ** Container: helpers that only read *)

(** [canonical] resolves an alias to its canonical key. *)
Definition canonical (c : Container) (abstract : string) : string :=
  match aliases c !! abstract with
  | Some target => target
  | None => abstract
  end.

(** [getContextual] returns the contextual factory for (concrete, abstract),
    or nil. *)
Definition getContextual (c : Container) (concrete abstract : string) : Factory :=
  match contextual c !! concrete with
  | Some m =>
      match m !! abstract with
      | Some f => f
      | None => Nil
      end
  | None => Nil
  end.

Definition applyExtenders (c : Container) (key : string) (instance : value) : value :=
  fold_left (fun inst (ext : extender) => ext inst)
            (default [] (extenders c !! key)) instance.

Definition is_nil (v : value) : bool :=
  match v with VNil => true | _ => false end.

Definition Factory_is_nil (f : Factory) : bool :=
  match f with Nil => true | _ => false end.

(** ** Observers *)

Definition fireRebound (abstract : string) (instance : value) (w : World) : World :=
  let cbs := default [] (reboundCallbacks (app w) !! abstract) in
  emit (map (fun cb => EvRebound cb instance) cbs) w.

Definition fireAfterResolving (abstract : string) (instance : value) (w : World) : World :=
  let cbs := afterResolving (app w) in
  emit (map (fun cb => EvResolved cb abstract instance) cbs) w.

Definition Rebinding (abstract : string) (cb : nat) (w : World) : World :=
  on_app (set_reboundCallbacks (fun m =>
    <[abstract := default [] (m !! abstract) ++ [cb]]> m)) w.

Definition AfterResolving (cb : nat) (w : World) : World :=
  on_app (set_afterResolving (fun l => l ++ [cb])) w.

(** ** Registration that never resolves *)

(** [fireRebound] as [Instance] calls it, with the write lock of [mu] still
    held (the [Unlock] of [Instance] is deferred): [fireRebound] begins with
    [mu.RLock], the mutex is not reentrant, so the lock is never granted:
    no callback list is read, no callback runs, and the call does not
    return. *)
Definition fireRebound_locked (abstract : string) (instance : value)
    (w : World) : result :=
  (w, Blocked).

(** [Instance] writes the two tables and then blocks in [fireRebound]; the
    world of the result is the container as the writes leave it. *)
Definition Instance (abstract : string) (instance : value) (w : World) : result :=
  let w1 := on_app (set_bindings (delete (canonical (app w) abstract))) w in
  let key := canonical (app w1) abstract in
  let w2 := on_app (set_instances (<[key := instance]>)) w1 in
  fireRebound_locked abstract instance w2.

Definition Alias (abstract alias : string) (w : World) : result :=
  if String.eqb abstract alias then (w, Panicked (SelfAlias abstract))
  else ok (on_app (fun c => set_aliases (<[alias := canonical c abstract]>) c) w).

Definition Extend (abstract : string) (fn : extender) (w : World) : World :=
  let key := canonical (app w) abstract in
  let w1 := on_app (set_extenders (fun m =>
              <[key := default [] (m !! key) ++ [fn]]> m)) w in
  match instances (app w1) !! key with
  | Some inst =>
      let extended := applyExtenders (app w1) key inst in
      let w2 := on_app (set_instances (<[key := extended]>)) w1 in
      fireRebound abstract extended w2
  | None => w1
  end.

(** [ContextualBuilder.Give], for the builder [When(concrete).Needs(needs)]. *)
Definition Give (concrete needs : string) (f : Factory) (w : World) : World :=
  on_app (set_contextual (fun t =>
    <[concrete := <[needs := f]> (default ∅ (t !! concrete))]> t)) w.

Definition GiveValue (concrete needs : string) (v : value) (w : World) : World :=
  Give concrete needs (Closure (FReturn v)) w.

Definition Forget (abstract : string) (w : World) : World :=
  let key := canonical (app w) abstract in
  on_app (fun c => set_instances (delete key) (set_bindings (delete key) c)) w.

(** [Flush] resets the entire container. *)
Definition Flush (w : World) : World :=
  on_app (fun c =>
    mkContainer ∅ ∅ ∅ ∅ ∅ ∅ (reboundCallbacks c) (afterResolving c) (buildStack c)) w.

Definition Bound (c : Container) (abstract : string) : bool :=
  let key := canonical c abstract in
  bool_decide (is_Some (bindings c !! key)) || bool_decide (is_Some (instances c !! key)).

Definition Resolved (c : Container) (abstract : string) : bool :=
  bool_decide (is_Some (instances c !! canonical c abstract)).

(** ** Resolution, with the recursive call to [make] left open *)

Section Resolver.

Variable mk : string -> World -> result.

(** [bind] is the internal registration helper. *)
Definition bind_ (abstract : string) (f : Factory) (singleton : bool)
    (w : World) : result :=
  let key := canonical (app w) abstract in
  let wasBound :=
    match instances (app w) !! key with
    | Some v => negb (is_nil v)
    | None => false
    end in
  let w1 := on_app (set_instances (delete key)) w in
  let w2 := on_app (set_bindings (<[key := mkBinding f singleton]>)) w1 in
  if wasBound
  then mk abstract w2 >>= fun w3 v => ok (fireRebound abstract v w3)
  else ok w2.

Definition action_ (a : action) (w : World) : result :=
  match a with
  | ABind abstract f => bind_ abstract (Closure f) false w
  | ASingleton abstract f => bind_ abstract (Closure f) true w
  | AInstance abstract v => Instance abstract v w
  | AAlias abstract alias => Alias abstract alias w
  | AExtend abstract fn => ok (Extend abstract fn w)
  | AGive concrete needs f => ok (Give concrete needs (Closure f) w)
  | AGiveValue concrete needs v => ok (GiveValue concrete needs v w)
  | AMake abstract => mk abstract w >>= fun w' _ => ok w'
  | AForget abstract => ok (Forget abstract w)
  | AFlush => ok (Flush w)
  | ARebinding abstract cb => ok (Rebinding abstract cb w)
  | AAfterResolving cb => ok (AfterResolving cb w)
  end.

Fixpoint body_ (b : factory) (w : World) : result :=
  match b with
  | FReturn v => (w, Ok v)
  | FNew tag => (alloc w, Ok (VPtr (heap w) tag))
  | FPanic msg => (w, Panicked (FactoryPanic msg))
  | FMake abstract => mk abstract w
  | FDo a k => action_ a w >>= fun w' _ => body_ k w'
  end.

Fixpoint actions_ (l : list action) (w : World) : result :=
  match l with
  | [] => ok w
  | a :: l' => action_ a w >>= fun w' _ => actions_ l' w'
  end.

(** [provider.Register(c)] and [provider.Boot(c)]. *)
Definition provider_Register (p : ServiceProvider) (w : World) : result :=
  actions_ (RegisterBody p) (emit [EvRegister (pid p)] w).

Definition provider_Boot (p : ServiceProvider) (w : World) : result :=
  actions_ (BootBody p) (emit [EvBoot (pid p)] w).

(** The closure that [interceptDeferred] binds under [abs]. *)
Definition deferred_closure (p : ServiceProvider) (abs : string)
    (w : World) : result :=
  (if negb (bool_decide (pid p ∈ registered (reg w)))
      || bool_decide (is_Some (deferred (reg w) !! abs))
   then
     provider_Register p w >>= fun w1 _ =>
     let w2 := on_reg (fun r =>
       mkRegistry (eager r) (delete abs (deferred r)) (booted r) (registered r)) w1 in
     if booted (reg w2) then provider_Boot p w2 else ok w2
   else ok w) >>= fun w' _ => mk abs w'.

(** [f(c)] for a [Factory] value [f]. *)
Definition call_ (f : Factory) (w : World) : result :=
  match f with
  | Nil => (w, Panicked NilFactory)
  | Closure b => body_ b w
  | Deferred p abs => deferred_closure p abs w
  end.

(** [runFactory] executes a factory, optionally caching the result. *)
Definition runFactory_ (key : string) (f : Factory) (singleton : bool)
    (w : World) : result :=
  let w1 := on_app (set_buildStack (fun s => s ++ [key])) w in
  call_ f w1 >>= fun w2 instance =>
  match buildStack (app w2) with
  | [] => (w2, Panicked SliceBounds)
  | _ :: _ =>
      let w3 := on_app (set_buildStack (@removelast string)) w2 in
      let exts : list extender := default [] (extenders (app w3) !! key) in
      let instance :=
        if Nat.ltb 0 (length exts) then applyExtenders (app w3) key instance
        else instance in
      let w4 := if singleton
                then on_app (set_instances (<[key := instance]>)) w3
                else w3 in
      (fireAfterResolving key instance w4, Ok instance)
  end.

(** [make] is the internal resolver. *)
Definition make_ (abstract : string) (w : World) : result :=
  let key := canonical (app w) abstract in
  match instances (app w) !! key with
  | Some inst => (w, Ok inst)
  | None =>
      let ctx :=
        match last (buildStack (app w)) with
        | Some caller => getContextual (app w) caller abstract
        | None => Nil
        end in
      if negb (Factory_is_nil ctx)
      then runFactory_ key ctx false w
      else
        match bindings (app w) !! key with
        | None => (w, Panicked (UnregisteredAbstract abstract))
        | Some b => runFactory_ key (b_factory b) (b_singleton b) w
        end
  end.

End Resolver.

Fixpoint make (fuel : nat) (abstract : string) (w : World) : result :=
  match fuel with
  | O => (w, OutOfFuel)
  | S fuel' => make_ (make fuel') abstract w
  end.

Definition Make := make.
Definition runFactory (fuel : nat) := runFactory_ (make fuel).
Definition bind (fuel : nat) := bind_ (make fuel).
Definition Bind (fuel : nat) (abstract : string) (f : Factory) := bind fuel abstract f false.
Definition Singleton (fuel : nat) (abstract : string) (f : Factory) := bind fuel abstract f true.
Definition call (fuel : nat) := call_ (make fuel).

(** ** Construction *)

Definition empty_container : Container :=
  mkContainer ∅ ∅ ∅ ∅ ∅ ∅ ∅ [] [].

(** [NewProviderRegistry]. *)
Definition NewProviderRegistry : ProviderRegistry :=
  mkRegistry [] ∅ false ∅.

(** [New] creates the maps and binds the container to itself with
    [Instance], which blocks (see [Instance]): the constructor does not
    return.  [New] is the container as that call leaves it, with the
    registry of [NewProviderRegistry] beside it; the sample runs below
    start from this state. *)
Definition New : World :=
  fst (Instance "container" VContainer
         (mkWorld empty_container NewProviderRegistry 0 [])).

(** ** Provider registry *)

Section Registry.

Variable mk : string -> World -> result.

(** [interceptDeferred] registers a lazy binding for each deferred
    abstract. *)
Fixpoint intercept_loop (provider : ServiceProvider) (abstracts : list string)
    (w : World) : result :=
  match abstracts with
  | [] => ok w
  | abs :: rest =>
      bind_ mk abs (Deferred provider abs) false w >>= fun w' _ =>
      intercept_loop provider rest w'
  end.

Definition interceptDeferred_ (provider : ServiceProvider) (w : World) : result :=
  intercept_loop provider (Provides provider) w.

Definition mark_deferred (provider : ServiceProvider) (r : ProviderRegistry)
    : ProviderRegistry :=
  mkRegistry (eager r)
    (fold_left (fun m abstract => <[abstract := provider]> m) (Provides provider)
               (deferred r))
    (booted r) (registered r).

(** [ProviderRegistry.Register]. *)
Definition Register_ (provider : ServiceProvider) (w : World) : result :=
  if bool_decide (pid provider ∈ registered (reg w)) then ok w
  else
    let w1 := on_reg (fun r =>
      mkRegistry (eager r) (deferred r) (booted r) ({[pid provider]} ∪ registered r)) w in
    if IsDeferred provider then
      interceptDeferred_ provider (on_reg (mark_deferred provider) w1)
    else
      provider_Register mk provider w1 >>= fun w2 _ =>
      let w3 := on_reg (fun r =>
        mkRegistry (eager r ++ [provider]) (deferred r) (booted r) (registered r)) w2 in
      if booted (reg w3) then provider_Boot mk provider w3 else ok w3.

Fixpoint boot_loop (providers : list ServiceProvider) (w : World) : result :=
  match providers with
  | [] => ok w
  | provider :: rest =>
      provider_Boot mk provider w >>= fun w' _ => boot_loop rest w'
  end.

(** [ProviderRegistry.Boot]. *)
Definition Boot_ (w : World) : result :=
  if booted (reg w) then ok w
  else
    let w1 := on_reg (fun r =>
      mkRegistry (eager r) (deferred r) true (registered r)) w in
    boot_loop (eager (reg w1)) w1.

End Registry.

Definition interceptDeferred (fuel : nat) := interceptDeferred_ (make fuel).
Definition Register (fuel : nat) := Register_ (make fuel).
Definition Boot (fuel : nat) := Boot_ (make fuel).
Definition Booted (w : World) : bool := booted (reg w).
Definition Providers (w : World) : list ServiceProvider := eager (reg w).

(** Counting the calls of a provider's methods in a trace. *)
Definition is_register (p : nat) (e : event) : bool :=
  match e with EvRegister q => Nat.eqb p q | _ => false end.
Definition is_boot (p : nat) (e : event) : bool :=
  match e with EvBoot q => Nat.eqb p q | _ => false end.
Definition register_calls (p : nat) (w : World) : nat :=
  length (filter (fun e => is_register p e = true) (trace w)).
Definition boot_calls (p : nat) (w : World) : nat :=
  length (filter (fun e => is_boot p e = true) (trace w)).

(** ** Scenarios

    Concrete programs over the container, used below to run the code. *)

(** [Singleton("k", func(c) any { return &T{} })] on a fresh container,
    followed by [Make("k")]. *)
Definition singleton_resolved : World :=
  fst (Singleton 3 "k" (Closure (FNew "T")) New >>= fun w _ => Make 3 "k" w).

(** Two decorators. *)
Definition wrapA : extender := VWrap "A".
Definition wrapB : extender := VWrap "B".

(** [Singleton("k", raw)], [Extend("k", A)], [Make("k")], then
    [Rebinding("k", 5)] and [Extend("k", B)]. *)
Definition extended_twice : World :=
  fst (Singleton 3 "k" (Closure (FReturn (VStr "raw"))) New >>= fun w _ =>
       Make 3 "k" (Extend "k" wrapA w) >>= fun w _ =>
       ok (Extend "k" wrapB (Rebinding "k" 5 w))).


(** A consumer whose dependency has a contextual entry and nothing else:
    [Bind("Consumer", c.Make("Dep"))] and
    [When("Consumer").Needs("Dep").GiveValue(42)]. *)
Definition only_contextual : World :=
  fst (Bind 3 "Consumer" (Closure (FMake "Dep")) New >>= fun w _ =>
       ok (GiveValue "Consumer" "Dep" (VInt 42) w)).

(** The state in which the factory of [key] runs: [key] is on top of the
    build stack. *)
Definition building (key : string) (w : World) : World :=
  on_app (set_buildStack (fun s => s ++ [key])) w.

(** The contextual factory that [make] consults for [abstract]: the entry
    of the top of the build stack, nil when the stack is empty. *)
Definition contextual_for (w : World) (abstract : string) : Factory :=
  match last (buildStack (app w)) with
  | Some caller => getContextual (app w) caller abstract
  | None => Nil
  end.

(** [Singleton("cache", ...)], [Alias("cache", "store")] and
    [Make("cache")]. *)
Definition aliased_world : World :=
  fst (Singleton 3 "cache" (Closure (FReturn (VStr "redis"))) New >>= fun w _ =>
       Alias "cache" "store" w >>= fun w _ =>
       Make 3 "cache" w).

(** What [bind] adds to the trace when the factory only returns [v] and
    the call is made outside any build. *)
Definition bind_value_events (fuel : nat) (abstract : string) (v : value)
    (w : World) : list event :=
  let key := canonical (app w) abstract in
  let v' := fold_left (fun x (e : extender) => e x)
                      (default [] (extenders (app w) !! key)) v in
  match instances (app w) !! key with
  | Some VNil | None => []
  | Some _ =>
      match fuel with
      | O => []
      | S _ =>
          map (fun cb => EvResolved cb key v') (afterResolving (app w))
          ++ map (fun cb => EvRebound cb v')
                 (default [] (reboundCallbacks (app w) !! abstract))
      end
  end.

(** The state in which [bind] has evicted the instance and installed the
    binding, before any rebuild. *)
Definition bind_installed (abstract : string) (f : Factory) (singleton : bool)
    (w : World) : World :=
  let key := canonical (app w) abstract in
  on_app (set_bindings (<[key := mkBinding f singleton]>))
         (on_app (set_instances (delete key)) w).

(** How an operation may leave the build stack: as it found it when it
    returns, with entries left on top of it when it panics or never
    returns. *)
Definition stack_post (w : World) (res : result) : Prop :=
  match snd res with
  | Ok _ => buildStack (app (fst res)) = buildStack (app w)
  | _ => exists extra, buildStack (app (fst res)) = buildStack (app w) ++ extra
  end.

(** [Singleton("Dep", default)], a consumer whose factory panics,
    [Bind("Consumer", panic)], and
    [When("Consumer").Needs("Dep").GiveValue(42)]. *)
Definition panicking_consumer : World :=
  fst (Singleton 3 "Dep" (Closure (FReturn (VStr "default"))) New >>= fun w _ =>
       Bind 3 "Consumer" (Closure (FPanic "boom")) w >>= fun w _ =>
       ok (GiveValue "Consumer" "Dep" (VInt 42) w)).

(** ** Invariants of the registry

    [Q] is a property of provider identities. *)

Definition factory_ok (Q : nat -> Prop) (f : Factory) : Prop :=
  match f with
  | Deferred p _ => Q (pid p)
  | _ => True
  end.

(** Every closure of [interceptDeferred] held by the container belongs to
    a provider that satisfies [Q]. *)
Definition lazy_all (Q : nat -> Prop) (w : World) : Prop :=
  map_Forall (fun _ b => factory_ok Q (b_factory b)) (bindings (app w)) /\
  map_Forall (fun _ (m : gmap string Factory) =>
                map_Forall (fun _ f => factory_ok Q f) m) (contextual (app w)).

(** Calls of provider methods recorded in the trace are calls on
    providers that satisfy [Q]. *)
Definition pev (Q : nat -> Prop) (e : event) : Prop :=
  match e with
  | EvRegister q | EvBoot q => Q q
  | _ => True
  end.

(** What running closures may do to the registry and the trace. *)
Definition frame_post (Q : nat -> Prop) (w : World) (res : result) : Prop :=
  eager (reg (fst res)) = eager (reg w) /\
  booted (reg (fst res)) = booted (reg w) /\
  registered (reg (fst res)) = registered (reg w) /\
  lazy_all Q (fst res) /\
  exists delta, trace (fst res) = trace w ++ delta /\ Forall (pev Q) delta.

(** The providers of [E] whose [Boot] a piece of trace records, in the
    order of the calls. *)
Fixpoint eager_boots (E : list nat) (delta : list event) : list nat :=
  match delta with
  | [] => []
  | EvBoot q :: rest =>
      if bool_decide (q ∈ E) then q :: eager_boots E rest else eager_boots E rest
  | _ :: rest => eager_boots E rest
  end.

Definition boot_calls_in (p : nat) (delta : list event) : nat :=
  length (filter (fun e => is_boot p e = true) delta).

(** The registry and the container agree: eager providers are distinct
    and registered, and the closures of [interceptDeferred] that the
    container holds belong to registered providers that are not eager. *)
Definition registry_wf (w : World) : Prop :=
  NoDup (map pid (eager (reg w))) /\
  (forall p, p ∈ eager (reg w) -> pid p ∈ registered (reg w)) /\
  lazy_all (fun q => q ∈ registered (reg w) /\ q ∉ map pid (eager (reg w))) w.

(** An eager provider whose [Boot] resolves a key. *)
Definition eager1 : ServiceProvider :=
  mkProvider 1 false []
    [ASingleton "eager-svc" (FReturn (VStr "eager"))] [AMake "eager-svc"].
Definition eager2 : ServiceProvider :=
  mkProvider 2 false [] [ASingleton "alpha" (FReturn (VStr "a"))] [].
Definition late3 : ServiceProvider :=
  mkProvider 3 false [] [ASingleton "late" (FReturn (VStr "l"))] [].

(** [Register(eager1)], [Register(eager2)]. *)
Definition two_eager : World :=
  fst (Register 3 eager2 (fst (Register 3 eager1 New))).

(** A deferred provider of two keys whose [Register] binds both. *)
Definition multi_deferred : ServiceProvider :=
  mkProvider 1 true ["alpha"; "beta"]
    [ASingleton "alpha" (FReturn (VStr "a")); ASingleton "beta" (FReturn (VStr "b"))]
    [].

(** A deferred provider that declares two keys and whose [Register] binds
    the first only. *)
Definition partial_deferred : ServiceProvider :=
  mkProvider 2 true ["alpha"; "beta"]
    [ASingleton "alpha" (FReturn (VStr "a"))]
    [].

(** A deferred provider that declares two keys; its [Register] binds the
    first and supplies the second through a contextual entry. *)
Definition contextual_deferred : ServiceProvider :=
  mkProvider 3 true ["alpha"; "beta"]
    [ASingleton "alpha" (FReturn (VStr "a"));
     AGiveValue "beta" "beta" (VStr "b")]
    [].

(** [Register(p)], [Boot()], [Make("alpha")], [Make("beta")]. *)
Definition resolve_both (p : ServiceProvider) : World * World * result :=
  let w0 := fst (Register 8 p New >>= fun w _ => Boot 8 w) in
  let w1 := fst (Make 8 "alpha" w0) in
  (w0, w1, Make 8 "beta" w1).

(** ** The rest of the container's interface *)

Definition set_tags
    (f : gmap string (list string) -> gmap string (list string)) (c : Container) :=
  mkContainer (bindings c) (instances c) (aliases c) (extenders c) (f (tags c))
    (contextual c) (reboundCallbacks c) (afterResolving c) (buildStack c).

(** [Tag] associates multiple abstracts under a named group. *)
Definition Tag (abstracts : list string) (tag : string) (w : World) : World :=
  on_app (set_tags (fun m => <[tag := default [] (m !! tag) ++ abstracts]> m)) w.

(** The result of [Tagged]: a slice of values, or the failure of the
    member at which resolution stopped. *)
Inductive outcomes : Type :=
| OkAll (result : list value)
| PanickedAll (e : failure)
| OutOfFuelAll
| BlockedAll.

Fixpoint tagged_loop (mk : string -> World -> result) (abstracts : list string)
    (acc : list value) (w : World) : World * outcomes :=
  match abstracts with
  | [] => (w, OkAll acc)
  | abs :: rest =>
      match mk abs w with
      | (w', Ok v) => tagged_loop mk rest (acc ++ [v]) w'
      | (w', Panicked e) => (w', PanickedAll e)
      | (w', OutOfFuel) => (w', OutOfFuelAll)
      | (w', Blocked) => (w', BlockedAll)
      end
  end.

(** [Tagged] resolves all abstracts registered under a tag. *)
Definition Tagged (fuel : nat) (tag : string) (w : World) : World * outcomes :=
  tagged_loop (make fuel) (default [] (tags (app w) !! tag)) [] w.

(** [Bindings] returns the registered keys: those of the bindings, then
    those of the instances that have no binding.  Go leaves the order of a
    map range unspecified; the model lists each map in the order of
    [map_to_list], and only order-free facts are stated about it. *)
Definition Bindings (c : Container) : list string :=
  (map_to_list (bindings c)).*1
  ++ filter (fun k => bindings c !! k = None) (map_to_list (instances c)).*1.

(** [Resolve] and [MustResolve]: [Make] followed by the type assertion
    [instance.(T)]; the type [T] is the set of values the assertion
    accepts. *)
Inductive resolved : Type :=
| Typed (v : value)
| TypeMismatch (abstract : string) (v : value)
| ResolvePanicked (e : failure)
| ResolveOutOfFuel
| ResolveBlocked.

Definition Resolve (T : value -> bool) (fuel : nat) (abstract : string)
    (w : World) : World * resolved :=
  match Make fuel abstract w with
  | (w', Ok instance) =>
      if T instance then (w', Typed instance)
      else (w', TypeMismatch abstract instance)
  | (w', Panicked e) => (w', ResolvePanicked e)
  | (w', OutOfFuel) => (w', ResolveOutOfFuel)
  | (w', Blocked) => (w', ResolveBlocked)
  end.

(** The pair [(typed, ok)] of [MustResolve]; [None] is the zero value of
    [T] with [ok = false]. *)
Inductive must_resolved : Type :=
| MustOk (r : option value)
| MustPanicked (e : failure)
| MustOutOfFuel
| MustBlocked.

Definition MustResolve (T : value -> bool) (fuel : nat) (abstract : string)
    (w : World) : World * must_resolved :=
  match Make fuel abstract w with
  | (w', Ok instance) =>
      if T instance then (w', MustOk (Some instance)) else (w', MustOk None)
  | (w', Panicked e) => (w', MustPanicked e)
  | (w', OutOfFuel) => (w', MustOutOfFuel)
  | (w', Blocked) => (w', MustBlocked)
  end.

(** The extender chain of a key applied to a value. *)
Definition decorated (w : World) (key : string) (v : value) : value :=
  fold_left (fun x (e : extender) => e x)
            (default [] (extenders (app w) !! key)) v.

(** No provided key of the provider has a cached instance. *)
Definition nothing_cached (p : ServiceProvider) (w : World) : Prop :=
  Forall (fun abs => instances (app w) !! canonical (app w) abs = None) (Provides p).

(** [ConfigServiceProvider] of the providers package: [Register] binds
    "config" as a singleton that loads the configuration and aliases it as
    "configuration"; the other methods are those of [BaseProvider]. *)
Definition ConfigServiceProvider (id : nat) : ServiceProvider :=
  mkProvider id false []
    [ASingleton "config" (FNew "config.Config"); AAlias "config" "configuration"]
    [].

(** A deferred provider of one service, as the deferred provider of the
    package's tests: [Provides] is [abs], [Register] does
    [Singleton(abs, func(c) any { return v })], [Boot] does nothing with
    the container. *)
Definition lazy_provider (id : nat) (abs : string) (v : value) : ServiceProvider :=
  mkProvider id true [abs] [ASingleton abs (FReturn v)] [].

(** A provider whose [Boot] panics, registered before [eager2]. *)
Definition boot_panics : ServiceProvider :=
  mkProvider 7 false [] [] [AMake "missing"].

Definition panicking_boot_world : World :=
  fst (Register 3 eager2 (fst (Register 3 boot_panics New))).

(** [Singleton("cache", old)] and [Make("cache")]: "cache" has been
    resolved before the deferred provider that declares it is
    registered. *)
Definition cache_resolved : World :=
  fst (Make 2 "cache" (fst (Singleton 0 "cache" (Closure (FReturn (VStr "old"))) New))).

Definition cache_deferred : ServiceProvider :=
  mkProvider 4 true ["cache"]
    [ASingleton "cache" (FReturn (VStr "lazy"))] [].

(** * Properties *)

(** ** Basic facts about the state updates *)

Lemma and_then_ok (r : result) (k : World -> value -> result) w v :
  r = (w, Ok v) -> r >>= k = k w v.
Proof. intros ->. reflexivity. Qed.

Lemma and_then_inv (r : result) (k : World -> value -> result) w' v' :
  r >>= k = (w', Ok v') ->
  exists w1 v1, r = (w1, Ok v1) /\ k w1 v1 = (w', Ok v').
Proof.
  destruct r as [w1 [v1 | e | | ]]; simpl; intros H; try discriminate.
  exists w1, v1. split; [reflexivity | exact H].
Qed.

Lemma make_S (fuel : nat) (abstract : string) (w : World) :
  make (S fuel) abstract w = make_ (make fuel) abstract w.
Proof. reflexivity. Qed.

(** ** Flush *)

(** After [Flush] nothing is resolvable: every table that [make] reads is
    empty. *)
Lemma make_after_Flush (fuel : nat) (abstract : string) (w : World) :
  make (S fuel) abstract (Flush w)
  = (Flush w, Panicked (UnregisteredAbstract abstract)).
Proof.
  rewrite make_S. unfold make_, canonical, getContextual. simpl.
  rewrite !lookup_empty. destruct (last (buildStack (app w))); reflexivity.
Qed.

(** C4, as stated, fails: the container resolves itself before [Flush]
    and no longer does afterwards. *)
Lemma C4_flush_counterexample :
  snd (make 3 "container" New) = Ok VContainer /\
  snd (make 3 "container" (Flush New)) = Panicked (UnregisteredAbstract "container").
Proof. vm_compute. split; reflexivity. Qed.

(** C4, amended: [Flush] empties bindings, instances (the container's own
    entry included), aliases, extenders, tags and contextual entries; it
    does not touch the registry and calls no callback; afterwards every
    [Make], that of the container itself too, fails as unregistered. *)
Theorem C4_flush_amended (w : World) :
  bindings (app (Flush w)) = ∅ /\
  instances (app (Flush w)) = ∅ /\
  aliases (app (Flush w)) = ∅ /\
  extenders (app (Flush w)) = ∅ /\
  tags (app (Flush w)) = ∅ /\
  contextual (app (Flush w)) = ∅ /\
  reg (Flush w) = reg w /\
  trace (Flush w) = trace w /\
  forall fuel abstract,
    Make (S fuel) abstract (Flush w)
    = (Flush w, Panicked (UnregisteredAbstract abstract)).
Proof.
  repeat split. intros fuel abstract. apply make_after_Flush.
Qed.

(** ** Bindings and instances *)

(** C3, as stated, fails: resolving a singleton caches the instance and
    keeps the binding, so both are present for the key. *)
Lemma C3_exclusive_counterexample :
  is_Some (bindings (app singleton_resolved) !! "k") /\
  is_Some (instances (app singleton_resolved) !! "k").
Proof. vm_compute. split; eexists; reflexivity. Qed.

Lemma Instance_tables (abstract : string) (v : value) (w : World) :
  bindings (app (fst (Instance abstract v w)))
    = delete (canonical (app w) abstract) (bindings (app w)) /\
  instances (app (fst (Instance abstract v w)))
    = <[canonical (app w) abstract := v]> (instances (app w)).
Proof. split; reflexivity. Qed.

(** [Instance] does not return, and neither does a closure once it calls
    it; no rebound callback has run when it blocks. *)
Lemma Instance_blocks (abstract : string) (v : value) (w : World) :
  snd (Instance abstract v w) = Blocked /\
  trace (fst (Instance abstract v w)) = trace w /\
  forall mk k, snd (body_ mk (FDo (AInstance abstract v) k) w) = Blocked.
Proof. repeat split. Qed.

Lemma bind_spec (fuel : nat) (abstract : string) (f : Factory)
    (singleton : bool) (w : World) :
  let key := canonical (app w) abstract in
  let w2 := bind_installed abstract f singleton w in
  bindings (app w2) !! key = Some (mkBinding f singleton) /\
  instances (app w2) !! key = None /\
  bind fuel abstract f singleton w =
    match instances (app w) !! key with
    | Some VNil | None => (w2, Ok VNil)
    | Some _ => make fuel abstract w2 >>= fun w3 v => ok (fireRebound abstract v w3)
    end.
Proof.
  intros key w2. subst w2. unfold bind_installed; simpl. fold key.
  rewrite lookup_insert_eq, lookup_delete_eq. repeat split.
  unfold bind, bind_. fold key.
  destruct (instances (app w) !! key) as [[] | ]; reflexivity.
Qed.

(** C3, amended: [Instance] leaves the key with an instance and no
    binding; [Bind] and [Singleton] first evict the cached instance and
    install the binding, and, when a non-nil instance had been cached,
    then rebuild the key through [make] and notify; nothing is claimed
    about singleton resolution, which keeps the binding next to the
    cached instance. *)
Theorem C3_exclusive_amended (fuel : nat) (abstract : string) (w : World) :
  let key := canonical (app w) abstract in
  (forall v,
     bindings (app (fst (Instance abstract v w))) !! key = None /\
     instances (app (fst (Instance abstract v w))) !! key = Some v) /\
  (forall f singleton,
     let w2 := bind_installed abstract f singleton w in
     bindings (app w2) !! key = Some (mkBinding f singleton) /\
     instances (app w2) !! key = None /\
     bind fuel abstract f singleton w =
       match instances (app w) !! key with
       | Some VNil | None => (w2, Ok VNil)
       | Some _ => make fuel abstract w2 >>= fun w3 v => ok (fireRebound abstract v w3)
       end).
Proof.
  intros key. split.
  - intros v. unfold Instance, fireRebound_locked; simpl. fold key.
    rewrite lookup_delete_eq, lookup_insert_eq. split; reflexivity.
  - intros f singleton. apply (bind_spec fuel abstract f singleton w).
Qed.

(** ** Extenders *)

Lemma applyExtenders_app (c : Container) (key : string) (old : list extender)
    (d : extender) (inst : value) :
  extenders c !! key = Some (old ++ [d]) ->
  applyExtenders c key inst = d (fold_left (fun x (e : extender) => e x) old inst).
Proof.
  intros H. unfold applyExtenders. rewrite H. simpl.
  rewrite fold_left_app. reflexivity.
Qed.

(** A freshly built value goes through the chain of its key once, in
    registration order. *)
Lemma runFactory_applies_chain (mk : string -> World -> result) (key : string)
    (f : Factory) (singleton : bool) (w w2 : World) (v : value) :
  call_ mk f (on_app (set_buildStack (fun s => s ++ [key])) w) = (w2, Ok v) ->
  buildStack (app w2) <> [] ->
  snd (runFactory_ mk key f singleton w)
  = Ok (fold_left (fun x (e : extender) => e x)
                  (default [] (extenders (app w2) !! key)) v).
Proof.
  intros Hcall Hstack. unfold runFactory_. rewrite Hcall. simpl.
  destruct (buildStack (app w2)) as [ | s l] eqn:E; [congruence | ].
  simpl. unfold applyExtenders. simpl.
  destruct (default [] (extenders (app w2) !! key)) as [ | e es]; reflexivity.
Qed.

(** [Extend] on a key with a cached instance. *)
Lemma Extend_cached (abstract : string) (d : extender) (w : World) (inst : value) :
  let key := canonical (app w) abstract in
  let old := default [] (extenders (app w) !! key) in
  let extended := d (fold_left (fun x (e : extender) => e x) old inst) in
  instances (app w) !! key = Some inst ->
  Extend abstract d w
  = fireRebound abstract extended
      (on_app (set_instances (<[key := extended]>))
         (on_app (set_extenders (fun m =>
            <[key := default [] (m !! key) ++ [d]]> m)) w)).
Proof.
  intros key old extended Hcached.
  assert (Hext : extenders (app (on_app (set_extenders (fun m =>
             <[key := default [] (m !! key) ++ [d]]> m)) w)) !! key
           = Some (old ++ [d])).
  { simpl. rewrite lookup_insert_eq. reflexivity. }
  unfold Extend. fold key.
  change (instances (app (on_app (set_extenders (fun m =>
            <[key := default [] (m !! key) ++ [d]]> m)) w)) !! key)
    with (instances (app w) !! key).
  rewrite Hcached.
  rewrite (applyExtenders_app _ key old d inst Hext). reflexivity.
Qed.

Lemma Extend_uncached (abstract : string) (d : extender) (w : World) :
  let key := canonical (app w) abstract in
  instances (app w) !! key = None ->
  Extend abstract d w
  = on_app (set_extenders (fun m => <[key := default [] (m !! key) ++ [d]]> m)) w.
Proof.
  intros key Hnone. unfold Extend. fold key.
  change (instances (app (on_app (set_extenders (fun m =>
            <[key := default [] (m !! key) ++ [d]]> m)) w)) !! key)
    with (instances (app w) !! key).
  rewrite Hnone. reflexivity.
Qed.

(** C5, as stated, fails: [Extend] on a cached instance does not apply the
    new decorator alone, it runs the whole chain again; with [A] applied at
    build time, adding [B] caches [B (A (A raw))]. *)
Lemma C5_extend_counterexample :
  instances (app extended_twice) !! "k"
    = Some (VWrap "B" (VWrap "A" (VWrap "A" (VStr "raw")))) /\
  instances (app extended_twice) !! "k"
    <> Some (VWrap "B" (VWrap "A" (VStr "raw"))).
Proof. vm_compute. split; [reflexivity | discriminate]. Qed.

(** C5, amended: when the key has a cached instance, [Extend] appends the
    decorator, replaces the cached instance by the result of running the
    whole chain of the key (earlier extenders first, the new one last) on
    it, and notifies the rebound callbacks stored under the name given;
    the next [Make] returns that value and changes nothing; a freshly
    built value goes through the chain once, in registration order. *)
Theorem C5_extend_amended (abstract : string) (d : extender) (w : World)
    (inst : value)
    (Hcached : instances (app w) !! canonical (app w) abstract = Some inst) :
  let key := canonical (app w) abstract in
  let old := default [] (extenders (app w) !! key) in
  let extended := d (fold_left (fun x (e : extender) => e x) old inst) in
  let w' := Extend abstract d w in
  extenders (app w') !! key = Some (old ++ [d]) /\
  instances (app w') !! key = Some extended /\
  trace w' = trace w ++ map (fun cb => EvRebound cb extended)
                            (default [] (reboundCallbacks (app w) !! abstract)) /\
  (forall fuel, Make (S fuel) abstract w' = (w', Ok extended)) /\
  (forall fuel key' f singleton w0 w2 v,
     call fuel f (on_app (set_buildStack (fun s => s ++ [key'])) w0) = (w2, Ok v) ->
     buildStack (app w2) <> [] ->
     snd (runFactory fuel key' f singleton w0)
     = Ok (fold_left (fun x (e : extender) => e x)
                     (default [] (extenders (app w2) !! key')) v)).
Proof.
  intros key old extended w'.
  assert (Hw' : w' = fireRebound abstract extended
            (on_app (set_instances (<[key := extended]>))
               (on_app (set_extenders (fun m =>
                  <[key := default [] (m !! key) ++ [d]]> m)) w)))
    by (apply (Extend_cached abstract d w inst Hcached)).
  split; [ | split; [ | split; [ | split]]].
  - rewrite Hw'. simpl. rewrite lookup_insert_eq. reflexivity.
  - rewrite Hw'. simpl. rewrite lookup_insert_eq. reflexivity.
  - rewrite Hw'. reflexivity.
  - intros fuel. unfold Make. rewrite make_S. unfold make_.
    assert (Hk : canonical (app w') abstract = key) by (rewrite Hw'; reflexivity).
    rewrite Hk.
    assert (Hi : instances (app w') !! key = Some extended).
    { rewrite Hw'. simpl. rewrite lookup_insert_eq. reflexivity. }
    rewrite Hi. reflexivity.
  - intros fuel key' f singleton w0 w2 v Hcall Hstack.
    apply (runFactory_applies_chain (make fuel) key' f singleton w0 w2 v Hcall Hstack).
Qed.

(** C5 on the resolved singleton "k": [Extend("k", A)] caches [A] of the
    instance. *)
Lemma C5_extend_amended_witness :
  instances (app singleton_resolved) !! canonical (app singleton_resolved) "k"
    = Some (VPtr 0 "T") /\
  instances (app (Extend "k" wrapA singleton_resolved)) !! "k"
    = Some (VWrap "A" (VPtr 0 "T")).
Proof.
  split; [vm_compute; reflexivity | ].
  apply (C5_extend_amended "k" wrapA singleton_resolved (VPtr 0 "T")).
  vm_compute; reflexivity.
Defined.

(** ** Resolution *)

Lemma make_cached (fuel : nat) (abstract : string) (w : World) (inst : value) :
  instances (app w) !! canonical (app w) abstract = Some inst ->
  make (S fuel) abstract w = (w, Ok inst).
Proof. intros H. rewrite make_S. unfold make_. rewrite H. reflexivity. Qed.

(** A successful [runFactory] with the singleton flag leaves its result in
    the instance cache. *)
Lemma runFactory_singleton_caches (mk : string -> World -> result) (key : string)
    (f : Factory) (w w1 : World) (v : value) :
  runFactory_ mk key f true w = (w1, Ok v) ->
  instances (app w1) !! key = Some v.
Proof.
  unfold runFactory_. intros H.
  apply and_then_inv in H as (w2 & v2 & _ & H).
  destruct (buildStack (app w2)); [discriminate | ].
  injection H as <- <-. simpl. apply lookup_insert_eq.
Qed.

(** With an empty build stack no contextual entry is consulted. *)
Lemma make_binding_toplevel (fuel : nat) (abstract : string) (w : World)
    (b : binding) :
  instances (app w) !! canonical (app w) abstract = None ->
  buildStack (app w) = [] ->
  bindings (app w) !! canonical (app w) abstract = Some b ->
  make (S fuel) abstract w
  = runFactory fuel (canonical (app w) abstract) (b_factory b) (b_singleton b) w.
Proof.
  intros Hi Hs Hb. rewrite make_S. unfold make_. rewrite Hi, Hs, Hb. reflexivity.
Qed.

(** C7: after [Singleton(key, f)] two sequential top-level [Make(key)] calls
    that find the key under the same canonical name return the same
    instance; the second call returns the cached value and leaves the
    state untouched, so the factory is not invoked again; when nothing
    had to be rebuilt at registration, the first call is one run of the
    factory. *)
Theorem C7_singleton_identity (fuel0 fuel1 fuel2 : nat) (abstract : string)
    (f : Factory) (w0 w w1 : World) (u v : value)
    (Htop : buildStack (app w0) = [])
    (Hreg : Singleton fuel0 abstract f w0 = (w, Ok u))
    (Hfirst : Make (S fuel1) abstract w = (w1, Ok v))
    (Hname : canonical (app w) abstract = canonical (app w0) abstract)
    (Hname1 : canonical (app w1) abstract = canonical (app w0) abstract) :
  Make (S fuel2) abstract w1 = (w1, Ok v) /\
  instances (app w1) !! canonical (app w0) abstract = Some v /\
  (instances (app w) !! canonical (app w0) abstract = None ->
   Make (S fuel1) abstract w
   = runFactory fuel1 (canonical (app w0) abstract) f true w).
Proof.
  set (key := canonical (app w0) abstract) in *.
  pose proof (bind_spec fuel0 abstract f true w0) as HB.
  cbv zeta in HB. fold key in HB.
  destruct HB as (Hb2 & Hi2 & Hbind).
  set (w2 := bind_installed abstract f true w0) in *.
  assert (Hk2 : canonical (app w2) abstract = key) by reflexivity.
  assert (Hs2 : buildStack (app w2) = []) by exact Htop.
  assert (Hrun : forall n wa va, make (S n) abstract w2 = (wa, Ok va) ->
                 instances (app wa) !! key = Some va).
  { intros n wa va Hm.
    rewrite (make_binding_toplevel n abstract w2 (mkBinding f true)) in Hm;
      rewrite ?Hk2; try assumption.
    apply (runFactory_singleton_caches (make n) key f w2 wa va Hm). }
  assert (Hcache : instances (app w1) !! key = Some v).
  { unfold Singleton in Hreg. rewrite Hbind in Hreg.
    destruct (instances (app w0) !! key) as [old | ] eqn:Hold.
    - destruct old; try (
        apply and_then_inv in Hreg as (w3 & v3 & Hm & Hfire);
        injection Hfire as <- _;
        destruct fuel0 as [ | n]; [discriminate | ];
        pose proof (Hrun n w3 v3 Hm) as Hc;
        unfold Make in Hfirst;
        rewrite (make_cached fuel1 abstract _ v3) in Hfirst
          by (rewrite Hname; exact Hc);
        injection Hfirst as <- <-; exact Hc).
      injection Hreg as <- _. apply (Hrun fuel1 w1 v Hfirst).
    - injection Hreg as <- _. apply (Hrun fuel1 w1 v Hfirst). }
  split; [ | split].
  - apply make_cached. rewrite Hname1. exact Hcache.
  - exact Hcache.
  - intros Hnone. unfold Make.
    rewrite (make_binding_toplevel fuel1 abstract w (mkBinding f true));
      rewrite ?Hname; try assumption; try reflexivity.
    + unfold Singleton in Hreg. rewrite Hbind in Hreg.
      destruct (instances (app w0) !! key) as [old | ] eqn:Hold.
      * destruct old; try (
          apply and_then_inv in Hreg as (w3 & v3 & Hm & Hfire);
          injection Hfire as <- _;
          destruct fuel0 as [ | n]; [discriminate | ];
          pose proof (Hrun n w3 v3 Hm) as Hc;
          simpl in Hnone; fold key in Hnone; congruence).
        injection Hreg as <- _. exact Htop.
      * injection Hreg as <- _. exact Htop.
    + unfold Singleton in Hreg. rewrite Hbind in Hreg.
      destruct (instances (app w0) !! key) as [old | ] eqn:Hold.
      * destruct old; try (
          apply and_then_inv in Hreg as (w3 & v3 & Hm & Hfire);
          injection Hfire as <- _;
          destruct fuel0 as [ | n]; [discriminate | ];
          pose proof (Hrun n w3 v3 Hm) as Hc;
          simpl in Hnone; fold key in Hnone; congruence).
        injection Hreg as <- _. exact Hb2.
      * injection Hreg as <- _. exact Hb2.
Qed.

(** ** Contextual binding *)

Lemma make_unfold (fuel : nat) (abstract : string) (w : World) :
  make (S fuel) abstract w =
  let key := canonical (app w) abstract in
  match instances (app w) !! key with
  | Some inst => (w, Ok inst)
  | None =>
      if negb (Factory_is_nil (contextual_for w abstract))
      then runFactory fuel key (contextual_for w abstract) false w
      else match bindings (app w) !! key with
           | None => (w, Panicked (UnregisteredAbstract abstract))
           | Some b => runFactory fuel key (b_factory b) (b_singleton b) w
           end
  end.
Proof. reflexivity. Qed.

Lemma pop_after_push (key : string) (w : World) :
  on_app (set_buildStack (@removelast string)) (building key w) = w.
Proof.
  destruct w as [[b i a e t c r ar st] rg h tr].
  unfold building, on_app, set_buildStack; simpl.
  rewrite removelast_last. reflexivity.
Qed.

(** Running a factory that only returns a value ([GiveValue]). *)
Lemma runFactory_value (mk : string -> World -> result) (key : string)
    (v : value) (singleton : bool) (w : World) :
  let v' := fold_left (fun x (e : extender) => e x)
                      (default [] (extenders (app w) !! key)) v in
  runFactory_ mk key (Closure (FReturn v)) singleton w
  = (fireAfterResolving key v'
       (if singleton then on_app (set_instances (<[key := v']>)) w else w),
     Ok v').
Proof.
  intros v'. unfold runFactory_. cbn [call_ body_ and_then].
  fold (building key w).
  assert (Hst : buildStack (app (building key w)) = buildStack (app w) ++ [key])
    by reflexivity.
  destruct (buildStack (app (building key w))) as [ | s l] eqn:E.
  { destruct (buildStack (app w)); discriminate. }
  rewrite pop_after_push.
  assert (Hv : (if Nat.ltb 0 (length (default [] (extenders (app w) !! key)))
                then applyExtenders (app w) key v else v) = v').
  { subst v'. unfold applyExtenders.
    destruct (default [] (extenders (app w) !! key)); reflexivity. }
  rewrite Hv. reflexivity.
Qed.




(** C7 on the singleton "k" of a fresh container. *)
Lemma C7_singleton_identity_witness :
  Make 1 "k" singleton_resolved = (singleton_resolved, Ok (VPtr 0 "T")).
Proof.
  apply (C7_singleton_identity 3 2 0 "k" (Closure (FNew "T")) New
           (fst (Singleton 3 "k" (Closure (FNew "T")) New))
           singleton_resolved VNil (VPtr 0 "T"));
    vm_compute; reflexivity.
Defined.

(** ** Rebound callbacks *)

Lemma bind_value_trace (fuel : nat) (abstract : string) (v : value)
    (singleton : bool) (w : World) :
  buildStack (app w) = [] ->
  trace (fst (bind fuel abstract (Closure (FReturn v)) singleton w))
  = trace w ++ bind_value_events fuel abstract v w.
Proof.
  intros Hs.
  pose proof (bind_spec fuel abstract (Closure (FReturn v)) singleton w) as HB.
  cbv zeta in HB.
  destruct HB as (Hb & Hi & ->).
  unfold bind_value_events.
  set (key := canonical (app w) abstract) in *.
  set (w2 := bind_installed abstract (Closure (FReturn v)) singleton w) in *.
  assert (Hrebuild :
    trace (fst (make fuel abstract w2 >>= fun w3 v0 => ok (fireRebound abstract v0 w3)))
    = trace w ++
      match fuel with
      | O => []
      | S _ =>
          map (fun cb => EvResolved cb key
                 (fold_left (fun x (e : extender) => e x)
                            (default [] (extenders (app w) !! key)) v))
              (afterResolving (app w))
          ++ map (fun cb => EvRebound cb
                 (fold_left (fun x (e : extender) => e x)
                            (default [] (extenders (app w) !! key)) v))
                 (default [] (reboundCallbacks (app w) !! abstract))
      end).
  { destruct fuel as [ | n]; [simpl; rewrite app_nil_r; reflexivity | ].
    rewrite (make_binding_toplevel n abstract w2 _ Hi Hs Hb).
    unfold runFactory; simpl b_factory; simpl b_singleton.
    change (canonical (app w2) abstract) with key.
    rewrite runFactory_value. cbn [and_then ok fst].
    change (extenders (app w2)) with (extenders (app w)).
    destruct singleton; simpl; rewrite <- app_assoc; reflexivity. }
  destruct (instances (app w) !! key) as [[] | ]; simpl fst;
    try exact Hrebuild; simpl; rewrite app_nil_r; reflexivity.
Qed.

(** C10: [Rebinding] files the callback under the name it is given and
    [fireRebound] reads the list of the name it is given, neither goes
    through the alias table; so for two different names [a] and [k],
    aliased or not, a callback stored under [a] adds nothing to what
    [Instance], [Extend], [Bind] or [Singleton] under the name [k]
    notify. *)
Theorem C10_rebinding_literal (a k : string) (cb : nat) (w : World)
    (Hne : a <> k) :
  reboundCallbacks (app (Rebinding a cb w)) !! a
    = Some (default [] (reboundCallbacks (app w) !! a) ++ [cb]) /\
  reboundCallbacks (app (Rebinding a cb w)) !! k = reboundCallbacks (app w) !! k /\
  (forall v, trace (fireRebound k v (Rebinding a cb w)) = trace (fireRebound k v w)) /\
  (forall v, trace (fireRebound a v (Rebinding a cb w))
             = trace (fireRebound a v w) ++ [EvRebound cb v]) /\
  (forall v, trace (fst (Instance k v (Rebinding a cb w)))
             = trace (fst (Instance k v w))) /\
  (forall fn, trace (Extend k fn (Rebinding a cb w)) = trace (Extend k fn w)) /\
  (forall fuel v singleton,
     buildStack (app w) = [] ->
     trace (fst (bind fuel k (Closure (FReturn v)) singleton (Rebinding a cb w)))
     = trace (fst (bind fuel k (Closure (FReturn v)) singleton w))).
Proof.
  assert (Hk : reboundCallbacks (app (Rebinding a cb w)) !! k
               = reboundCallbacks (app w) !! k).
  { simpl. apply lookup_insert_ne. exact Hne. }
  assert (Ha : reboundCallbacks (app (Rebinding a cb w)) !! a
               = Some (default [] (reboundCallbacks (app w) !! a) ++ [cb])).
  { simpl. apply lookup_insert_eq. }
  split; [exact Ha | ]. split; [exact Hk | ].
  split; [ | split; [ | split; [ | split]]].
  - intros v. unfold fireRebound. rewrite Hk. reflexivity.
  - intros v. unfold fireRebound. rewrite Ha. simpl.
    rewrite map_app, app_assoc. reflexivity.
  - intros v. reflexivity.
  - intros fn.
    destruct (instances (app w) !! canonical (app w) k) as [inst | ] eqn:Hi.
    + rewrite (Extend_cached k fn w inst Hi).
      rewrite (Extend_cached k fn (Rebinding a cb w) inst Hi).
      unfold fireRebound. simpl.
      rewrite lookup_insert_ne by exact Hne. reflexivity.
    + rewrite (Extend_uncached k fn w Hi).
      rewrite (Extend_uncached k fn (Rebinding a cb w) Hi). reflexivity.
  - intros fuel v singleton Hs.
    rewrite !bind_value_trace by exact Hs.
    unfold bind_value_events.
    change (canonical (app (Rebinding a cb w)) k) with (canonical (app w) k).
    change (instances (app (Rebinding a cb w))) with (instances (app w)).
    change (extenders (app (Rebinding a cb w))) with (extenders (app w)).
    change (afterResolving (app (Rebinding a cb w))) with (afterResolving (app w)).
    rewrite Hk. reflexivity.
Qed.

(** C10 on [aliased_world]: "store" is an alias of "cache", and a
    callback under "store" is silent when "cache" is re-instanced. *)
Lemma C10_rebinding_literal_witness :
  "store" <> "cache" /\
  canonical (app aliased_world) "store" = "cache" /\
  trace (fst (Instance "cache" (VStr "memcached") (Rebinding "store" 9 aliased_world)))
  = trace (fst (Instance "cache" (VStr "memcached") aliased_world)).
Proof.
  assert (Hne : "store" <> "cache") by discriminate.
  split; [exact Hne | ].
  split; [vm_compute; reflexivity | ].
  destruct (C10_rebinding_literal "store" "cache" 9 aliased_world Hne)
    as (_ & _ & _ & _ & H & _).
  exact (H (VStr "memcached")).
Defined.

(** ** The build stack *)

Lemma stack_post_same (w : World) (o : outcome) (w1 : World) :
  buildStack (app w1) = buildStack (app w) -> stack_post w (w1, o).
Proof.
  intros H. unfold stack_post; simpl. destruct o; try exact H;
    exists []; rewrite app_nil_r; exact H.
Qed.

Lemma stack_post_from (w w1 : World) (res : result) :
  buildStack (app w1) = buildStack (app w) ->
  stack_post w1 res -> stack_post w res.
Proof. unfold stack_post. intros ->. exact id. Qed.

Lemma stack_and_then (w : World) (r : result) (k : World -> value -> result) :
  stack_post w r ->
  (forall w1 v1, stack_post w1 (k w1 v1)) ->
  stack_post w (r >>= k).
Proof.
  destruct r as [w1 [v1 | e | | ]]; simpl; intros Hr Hk; try exact Hr.
  apply (stack_post_from w w1); [exact Hr | apply Hk].
Qed.

Lemma Extend_stack (abstract : string) (fn : extender) (w : World) :
  buildStack (app (Extend abstract fn w)) = buildStack (app w).
Proof.
  destruct (instances (app w) !! canonical (app w) abstract) as [inst | ] eqn:Hi.
  - rewrite (Extend_cached abstract fn w inst Hi). reflexivity.
  - rewrite (Extend_uncached abstract fn w Hi). reflexivity.
Qed.

Section StackDiscipline.

Variable mk : string -> World -> result.
Hypothesis mk_stack : forall abstract w, stack_post w (mk abstract w).

Lemma bind_stack abstract f singleton w :
  stack_post w (bind_ mk abstract f singleton w).
Proof.
  unfold bind_.
  destruct (match instances (app w) !! canonical (app w) abstract with
            | Some v => negb (is_nil v) | None => false end).
  - apply stack_and_then.
    + eapply stack_post_from; [ | apply mk_stack]. reflexivity.
    + intros w1 v1. apply stack_post_same. reflexivity.
  - apply stack_post_same. reflexivity.
Qed.

Lemma action_stack a w : stack_post w (action_ mk a w).
Proof.
  destruct a; simpl; try apply bind_stack;
    try (apply stack_post_same; reflexivity).
  - unfold Alias. destruct (String.eqb abstract alias);
      apply stack_post_same; reflexivity.
  - apply stack_post_same. apply Extend_stack.
  - apply stack_and_then; [apply mk_stack | ].
    intros w1 v1. apply stack_post_same. reflexivity.
Qed.

Lemma body_stack b : forall w, stack_post w (body_ mk b w).
Proof.
  induction b as [v | tag | msg | abstract | a k IH]; intros w; simpl.
  - apply stack_post_same. reflexivity.
  - apply stack_post_same. reflexivity.
  - apply stack_post_same. reflexivity.
  - apply mk_stack.
  - apply stack_and_then; [apply action_stack | intros w1 _; apply IH].
Qed.

Lemma actions_stack l : forall w, stack_post w (actions_ mk l w).
Proof.
  induction l as [ | a l IH]; intros w; simpl.
  - apply stack_post_same. reflexivity.
  - apply stack_and_then; [apply action_stack | intros w1 _; apply IH].
Qed.

Lemma provider_Register_stack p w : stack_post w (provider_Register mk p w).
Proof.
  unfold provider_Register.
  eapply stack_post_from; [ | apply actions_stack]. reflexivity.
Qed.

Lemma provider_Boot_stack p w : stack_post w (provider_Boot mk p w).
Proof.
  unfold provider_Boot.
  eapply stack_post_from; [ | apply actions_stack]. reflexivity.
Qed.

Lemma call_stack f w : stack_post w (call_ mk f w).
Proof.
  destruct f as [ | b | p abs]; simpl.
  - apply stack_post_same. reflexivity.
  - apply body_stack.
  - unfold deferred_closure.
    apply stack_and_then; [ | intros w1 _; apply mk_stack].
    destruct (negb (bool_decide (pid p ∈ registered (reg w)))
              || bool_decide (is_Some (deferred (reg w) !! abs))).
    + apply stack_and_then; [apply provider_Register_stack | ].
      intros w1 _. cbv zeta.
      destruct (booted _).
      * eapply stack_post_from; [ | apply provider_Boot_stack]. reflexivity.
      * apply stack_post_same. reflexivity.
    + apply stack_post_same. reflexivity.
Qed.

(** [runFactory] pops what it pushed when the factory returns, and
    leaves its key on the stack otherwise. *)
Lemma runFactory_stack key f singleton w :
  match snd (runFactory_ mk key f singleton w) with
  | Ok _ =>
      buildStack (app (fst (runFactory_ mk key f singleton w)))
      = buildStack (app w)
  | _ =>
      exists extra,
        buildStack (app (fst (runFactory_ mk key f singleton w)))
        = buildStack (app w) ++ key :: extra
  end.
Proof.
  unfold runFactory_.
  pose proof (call_stack f (building key w)) as Hc.
  fold (building key w).
  destruct (call_ mk f (building key w)) as [w2 [v | e | | ]];
    unfold stack_post in Hc; simpl in Hc; simpl.
  - destruct (buildStack (app w2)) as [ | s l] eqn:E.
    { destruct (buildStack (app w)); discriminate. }
    simpl. destruct singleton; simpl; rewrite E, Hc; apply removelast_last.
  - destruct Hc as [extra ->]. exists extra. rewrite <- app_assoc. reflexivity.
  - destruct Hc as [extra ->]. exists extra. rewrite <- app_assoc. reflexivity.
  - destruct Hc as [extra ->]. exists extra. rewrite <- app_assoc. reflexivity.
Qed.

Lemma runFactory_stack_post key f singleton w :
  stack_post w (runFactory_ mk key f singleton w).
Proof.
  pose proof (runFactory_stack key f singleton w) as H. unfold stack_post.
  destruct (snd (runFactory_ mk key f singleton w)); try exact H;
    destruct H as [extra H]; exists (key :: extra); exact H.
Qed.

Lemma make_step_stack abstract w : stack_post w (make_ mk abstract w).
Proof.
  unfold make_.
  destruct (instances (app w) !! canonical (app w) abstract).
  - apply stack_post_same. reflexivity.
  - destruct (negb _); [apply runFactory_stack_post | ].
    destruct (bindings (app w) !! canonical (app w) abstract).
    + apply runFactory_stack_post.
    + apply stack_post_same. reflexivity.
Qed.

End StackDiscipline.

Lemma make_stack (fuel : nat) : forall abstract w, stack_post w (make fuel abstract w).
Proof.
  induction fuel as [ | n IH]; intros abstract w.
  - apply stack_post_same. reflexivity.
  - rewrite make_S. apply make_step_stack. exact IH.
Qed.

Lemma runFactory_failure_moves_stack (fuel : nat) (key : string) (f : Factory)
    (singleton : bool) (w : World) (e : failure) :
  runFactory fuel key f singleton w <> (w, Panicked e).
Proof.
  intros H.
  pose proof (runFactory_stack (make fuel) (make_stack fuel) key f singleton w) as Hs.
  unfold runFactory in H. rewrite H in Hs. simpl in Hs.
  destruct Hs as [extra Hs].
  apply (f_equal (@length string)) in Hs.
  rewrite length_app in Hs. simpl in Hs. lia.
Qed.

(** C2: the code pops the build stack only after the factory has
    returned.  A [Make] that returns leaves the stack as it found it; a
    build whose factory fails leaves its key on the stack.  On the
    container [panicking_consumer], [Make("Consumer")] panics and leaves
    "Consumer" on the stack, and the next top-level [Make("Dep")] is then
    answered by the contextual entry of "Consumer" instead of the
    binding. *)
Theorem C2_stack_not_unwound_on_panic :
  (forall fuel abstract w,
     match snd (Make fuel abstract w) with
     | Ok _ => buildStack (app (fst (Make fuel abstract w))) = buildStack (app w)
     | _ => True
     end) /\
  (forall fuel key f singleton w,
     match snd (runFactory fuel key f singleton w) with
     | Ok _ => True
     | _ => exists extra,
         buildStack (app (fst (runFactory fuel key f singleton w)))
         = buildStack (app w) ++ key :: extra
     end) /\
  buildStack (app panicking_consumer) = [] /\
  snd (Make 3 "Consumer" panicking_consumer) = Panicked (FactoryPanic "boom") /\
  buildStack (app (fst (Make 3 "Consumer" panicking_consumer))) = ["Consumer"] /\
  snd (Make 3 "Dep" panicking_consumer) = Ok (VStr "default") /\
  snd (Make 3 "Dep" (fst (Make 3 "Consumer" panicking_consumer))) = Ok (VInt 42).
Proof.
  split; [ | split].
  - intros fuel abstract w.
    pose proof (make_stack fuel abstract w) as H. unfold stack_post in H.
    unfold Make. destruct (snd (make fuel abstract w)); auto.
  - intros fuel key f singleton w.
    pose proof (runFactory_stack (make fuel) (make_stack fuel) key f singleton w) as H.
    unfold runFactory. destruct (snd (runFactory_ (make fuel) key f singleton w)); auto.
  - vm_compute. repeat split.
Qed.

(** ** Unregistered keys *)

(** C8, as stated, fails: while "Consumer" is being built, [Make("Dep")]
    finds neither a binding nor an instance for "Dep" and still returns
    the value of the contextual entry. *)
Lemma C8_unregistered_counterexample :
  bindings (app (building "Consumer" only_contextual))
    !! canonical (app (building "Consumer" only_contextual)) "Dep" = None /\
  instances (app (building "Consumer" only_contextual))
    !! canonical (app (building "Consumer" only_contextual)) "Dep" = None /\
  snd (Make 2 "Dep" (building "Consumer" only_contextual)) = Ok (VInt 42) /\
  snd (Make 3 "Consumer" only_contextual) = Ok (VInt 42).
Proof. vm_compute. repeat split. Qed.

Lemma contextual_for_toplevel (abstract : string) (w : World) :
  buildStack (app w) = [] -> contextual_for w abstract = Nil.
Proof. unfold contextual_for. intros ->. reflexivity. Qed.

(** C8, amended: [Make] itself fails with UnregisteredAbstract, naming the
    key it was asked for and leaving the state as it was, exactly when the
    canonical key has no cached instance, the top of the build stack has
    no contextual factory for the key (always so outside a build), and
    the canonical key has no binding; the failure is a panic, no value is
    returned. *)
Theorem C8_unregistered_amended (fuel : nat) (abstract : string) (w : World) :
  Make (S fuel) abstract w = (w, Panicked (UnregisteredAbstract abstract))
  <->
  instances (app w) !! canonical (app w) abstract = None /\
  Factory_is_nil (contextual_for w abstract) = true /\
  bindings (app w) !! canonical (app w) abstract = None.
Proof.
  unfold Make. rewrite make_unfold. cbv zeta. split.
  - destruct (instances (app w) !! canonical (app w) abstract); [discriminate | ].
    destruct (Factory_is_nil (contextual_for w abstract)); simpl.
    + destruct (bindings (app w) !! canonical (app w) abstract) as [b | ].
      * intros H. exfalso. exact (runFactory_failure_moves_stack _ _ _ _ _ _ H).
      * intros _. repeat split.
    + intros H. exfalso. exact (runFactory_failure_moves_stack _ _ _ _ _ _ H).
  - intros (-> & -> & ->). reflexivity.
Qed.

(** ** What closures can do to the registry *)

Lemma frame_step (Q : nat -> Prop) (w w1 : World) (o : outcome) (delta : list event) :
  eager (reg w1) = eager (reg w) ->
  booted (reg w1) = booted (reg w) ->
  registered (reg w1) = registered (reg w) ->
  lazy_all Q w1 ->
  trace w1 = trace w ++ delta ->
  Forall (pev Q) delta ->
  frame_post Q w (w1, o).
Proof.
  intros He Hb Hr Hl Ht Hd. unfold frame_post; simpl.
  split; [ | split; [ | split; [ | split]]]; try assumption.
  exists delta. split; assumption.
Qed.

Lemma frame_refl (Q : nat -> Prop) (w : World) (o : outcome) :
  lazy_all Q w -> frame_post Q w (w, o).
Proof.
  intros Hl. apply (frame_step Q w w o []); auto.
  symmetry. apply app_nil_r.
Qed.

Lemma frame_trans (Q : nat -> Prop) (w w1 : World) (o : outcome) (res : result) :
  frame_post Q w (w1, o) -> frame_post Q w1 res -> frame_post Q w res.
Proof.
  unfold frame_post; simpl.
  intros (He & Hb & Hr & _ & d1 & Ht1 & Hd1) (He' & Hb' & Hr' & Hl & d2 & Ht2 & Hd2).
  split; [ | split; [ | split; [ | split]]]; try congruence.
  exists (d1 ++ d2). split.
  - rewrite Ht2, Ht1, app_assoc. reflexivity.
  - apply Forall_app. split; assumption.
Qed.

Lemma frame_lazy (Q : nat -> Prop) (w : World) (res : result) :
  frame_post Q w res -> lazy_all Q (fst res).
Proof. intros (_ & _ & _ & H & _). exact H. Qed.

Lemma frame_and_then (Q : nat -> Prop) (w : World) (r : result)
    (k : World -> value -> result) :
  frame_post Q w r ->
  (forall w1 v1, lazy_all Q w1 -> frame_post Q w1 (k w1 v1)) ->
  frame_post Q w (r >>= k).
Proof.
  destruct r as [w1 [v1 | e | | ]]; simpl; intros Hr Hk; try exact Hr.
  apply (frame_trans Q w w1 (Ok v1)); [exact Hr | ].
  apply Hk. apply (frame_lazy Q w _ Hr).
Qed.

Lemma pev_rebound (Q : nat -> Prop) (v : value) (cbs : list nat) :
  Forall (pev Q) (map (fun cb => EvRebound cb v) cbs).
Proof. induction cbs; simpl; constructor; simpl; auto. Qed.

Lemma pev_resolved (Q : nat -> Prop) (key : string) (v : value) (cbs : list nat) :
  Forall (pev Q) (map (fun cb => EvResolved cb key v) cbs).
Proof. induction cbs; simpl; constructor; simpl; auto. Qed.

(** Updates of the tables that hold no factories. *)
Lemma lazy_all_tables (Q : nat -> Prop) (w w1 : World) :
  bindings (app w1) = bindings (app w) ->
  contextual (app w1) = contextual (app w) ->
  lazy_all Q w -> lazy_all Q w1.
Proof. unfold lazy_all. intros -> ->. exact id. Qed.

Lemma lazy_all_binding (Q : nat -> Prop) (w : World) (key : string) (b : binding) :
  lazy_all Q w -> bindings (app w) !! key = Some b -> factory_ok Q (b_factory b).
Proof. unfold lazy_all. intros [Hb _] Hk. exact (Hb key b Hk). Qed.

Lemma lazy_all_contextual (Q : nat -> Prop) (w : World) (abstract : string) :
  lazy_all Q w -> factory_ok Q (contextual_for w abstract).
Proof.
  unfold lazy_all. intros [_ Hc]. unfold contextual_for, getContextual.
  destruct (last (buildStack (app w))) as [caller | ]; [ | exact I].
  destruct (contextual (app w) !! caller) as [m | ] eqn:Hm; [ | exact I].
  destruct (m !! abstract) as [f | ] eqn:Hf; [ | exact I].
  exact (Hc caller m Hm abstract f Hf).
Qed.

Lemma lazy_all_bind_installed (Q : nat -> Prop) (abstract : string) (f : Factory)
    (singleton : bool) (w : World) :
  factory_ok Q f -> lazy_all Q w ->
  lazy_all Q (bind_installed abstract f singleton w).
Proof.
  unfold lazy_all. intros Hf [Hb Hc]. split; [ | exact Hc].
  unfold bind_installed; simpl. apply map_Forall_insert_2; assumption.
Qed.

Lemma lazy_all_Instance (Q : nat -> Prop) (abstract : string) (v : value) (w : World) :
  lazy_all Q w -> lazy_all Q (fst (Instance abstract v w)).
Proof.
  unfold lazy_all. intros [Hb Hc]. split; [ | exact Hc].
  unfold Instance, fireRebound_locked; simpl. apply map_Forall_delete. exact Hb.
Qed.

Lemma lazy_all_Extend (Q : nat -> Prop) (abstract : string) (fn : extender) (w : World) :
  lazy_all Q w -> lazy_all Q (Extend abstract fn w).
Proof.
  destruct (instances (app w) !! canonical (app w) abstract) as [inst | ] eqn:Hi.
  - rewrite (Extend_cached abstract fn w inst Hi). apply lazy_all_tables; reflexivity.
  - rewrite (Extend_uncached abstract fn w Hi). apply lazy_all_tables; reflexivity.
Qed.

Lemma lazy_all_Give (Q : nat -> Prop) (concrete needs : string) (f : Factory) (w : World) :
  factory_ok Q f -> lazy_all Q w -> lazy_all Q (Give concrete needs f w).
Proof.
  unfold lazy_all. intros Hf [Hb Hc]. split; [exact Hb | ].
  unfold Give; simpl. apply map_Forall_insert_2; [ | exact Hc].
  apply map_Forall_insert_2; [exact Hf | ].
  destruct (contextual (app w) !! concrete) as [m | ] eqn:Hm; simpl.
  - exact (Hc concrete m Hm).
  - apply map_Forall_empty.
Qed.

Lemma lazy_all_Forget (Q : nat -> Prop) (abstract : string) (w : World) :
  lazy_all Q w -> lazy_all Q (Forget abstract w).
Proof.
  unfold lazy_all. intros [Hb Hc]. split; [ | exact Hc].
  unfold Forget; simpl. apply map_Forall_delete. exact Hb.
Qed.

Lemma lazy_all_Flush (Q : nat -> Prop) (w : World) : lazy_all Q (Flush w).
Proof. split; simpl; apply map_Forall_empty. Qed.

(** A step that leaves the registry alone. *)
Lemma frame_quiet (Q : nat -> Prop) (w w1 : World) (o : outcome) (delta : list event) :
  reg w1 = reg w ->
  lazy_all Q w1 ->
  trace w1 = trace w ++ delta ->
  Forall (pev Q) delta ->
  frame_post Q w (w1, o).
Proof.
  intros Hr Hl Ht Hd.
  apply (frame_step Q w w1 o delta); try assumption; rewrite Hr; reflexivity.
Qed.

Lemma frame_silent (Q : nat -> Prop) (w w1 : World) (o : outcome) :
  reg w1 = reg w -> trace w1 = trace w -> lazy_all Q w1 ->
  frame_post Q w (w1, o).
Proof.
  intros Hr Ht Hl. apply (frame_quiet Q w w1 o []); auto.
  rewrite Ht. symmetry. apply app_nil_r.
Qed.

Lemma Extend_frame (Q : nat -> Prop) (abstract : string) (fn : extender) (w : World) :
  lazy_all Q w -> frame_post Q w (ok (Extend abstract fn w)).
Proof.
  intros Hl. pose proof (lazy_all_Extend Q abstract fn w Hl) as Hl'.
  destruct (instances (app w) !! canonical (app w) abstract) as [inst | ] eqn:Hi.
  - rewrite (Extend_cached abstract fn w inst Hi) in *.
    eapply frame_quiet; [reflexivity | exact Hl' | reflexivity | apply pev_rebound].
  - rewrite (Extend_uncached abstract fn w Hi) in *.
    apply frame_silent; [reflexivity | reflexivity | exact Hl'].
Qed.

Section FrameDiscipline.

Variable Q : nat -> Prop.
Variable mk : string -> World -> result.
Hypothesis mk_frame :
  forall abstract w, lazy_all Q w -> frame_post Q w (mk abstract w).

Lemma bind_frame abstract f singleton w :
  factory_ok Q f -> lazy_all Q w ->
  frame_post Q w (bind_ mk abstract f singleton w).
Proof.
  intros Hf Hl.
  pose proof (lazy_all_bind_installed Q abstract f singleton w Hf Hl) as Hl2.
  assert (H2 : frame_post Q w (bind_installed abstract f singleton w, Ok VNil))
    by (apply frame_silent; [reflexivity | reflexivity | exact Hl2]).
  unfold bind_. fold (bind_installed abstract f singleton w).
  destruct (match instances (app w) !! canonical (app w) abstract with
            | Some v => negb (is_nil v) | None => false end); [ | exact H2].
  eapply frame_trans; [exact H2 | ].
  apply frame_and_then; [apply mk_frame; exact Hl2 | ].
  intros w1 v1 Hl1.
  eapply frame_quiet; [reflexivity | | reflexivity | apply pev_rebound].
  apply (lazy_all_tables Q w1); [reflexivity | reflexivity | exact Hl1].
Qed.

Lemma action_frame a w :
  lazy_all Q w -> frame_post Q w (action_ mk a w).
Proof.
  intros Hl. destruct a; simpl.
  - apply bind_frame; [exact I | exact Hl].
  - apply bind_frame; [exact I | exact Hl].
  - rewrite (surjective_pairing (Instance abstract v w)).
    apply frame_silent;
      [reflexivity | reflexivity | apply lazy_all_Instance; exact Hl].
  - unfold Alias. destruct (String.eqb abstract alias).
    + apply frame_refl. exact Hl.
    + apply frame_silent; [reflexivity | reflexivity | ].
      apply (lazy_all_tables Q w); [reflexivity | reflexivity | exact Hl].
  - apply Extend_frame. exact Hl.
  - apply frame_silent; [reflexivity | reflexivity | ].
    apply lazy_all_Give; [exact I | exact Hl].
  - apply frame_silent; [reflexivity | reflexivity | ].
    apply lazy_all_Give; [exact I | exact Hl].
  - apply frame_and_then; [apply mk_frame; exact Hl | ].
    intros w1 v1 Hl1. apply frame_refl. exact Hl1.
  - apply frame_silent; [reflexivity | reflexivity | ].
    apply lazy_all_Forget. exact Hl.
  - apply frame_silent; [reflexivity | reflexivity | apply lazy_all_Flush].
  - apply frame_silent; [reflexivity | reflexivity | ].
    apply (lazy_all_tables Q w); [reflexivity | reflexivity | exact Hl].
  - apply frame_silent; [reflexivity | reflexivity | ].
    apply (lazy_all_tables Q w); [reflexivity | reflexivity | exact Hl].
Qed.

Lemma body_frame b :
  forall w, lazy_all Q w -> frame_post Q w (body_ mk b w).
Proof.
  induction b as [v | tag | msg | abstract | a k IH]; intros w Hl; simpl.
  - apply frame_refl. exact Hl.
  - apply frame_silent; [reflexivity | reflexivity | ].
    apply (lazy_all_tables Q w); [reflexivity | reflexivity | exact Hl].
  - apply frame_refl. exact Hl.
  - apply mk_frame. exact Hl.
  - apply frame_and_then; [apply action_frame; exact Hl | ].
    intros w1 _ Hl1. apply IH. exact Hl1.
Qed.

Lemma actions_frame l :
  forall w, lazy_all Q w -> frame_post Q w (actions_ mk l w).
Proof.
  induction l as [ | a l IH]; intros w Hl; simpl.
  - apply frame_refl. exact Hl.
  - apply frame_and_then; [apply action_frame; exact Hl | ].
    intros w1 _ Hl1. apply IH. exact Hl1.
Qed.

Lemma provider_Register_frame p w :
  Q (pid p) -> lazy_all Q w -> frame_post Q w (provider_Register mk p w).
Proof.
  intros Hp Hl. unfold provider_Register.
  apply (frame_trans Q w (emit [EvRegister (pid p)] w) (Ok VNil)).
  - eapply frame_quiet; [reflexivity | | reflexivity | ].
    + apply (lazy_all_tables Q w); [reflexivity | reflexivity | exact Hl].
    + constructor; [exact Hp | constructor].
  - apply actions_frame.
    apply (lazy_all_tables Q w); [reflexivity | reflexivity | exact Hl].
Qed.

Lemma provider_Boot_frame p w :
  Q (pid p) -> lazy_all Q w -> frame_post Q w (provider_Boot mk p w).
Proof.
  intros Hp Hl. unfold provider_Boot.
  apply (frame_trans Q w (emit [EvBoot (pid p)] w) (Ok VNil)).
  - eapply frame_quiet; [reflexivity | | reflexivity | ].
    + apply (lazy_all_tables Q w); [reflexivity | reflexivity | exact Hl].
    + constructor; [exact Hp | constructor].
  - apply actions_frame.
    apply (lazy_all_tables Q w); [reflexivity | reflexivity | exact Hl].
Qed.

Lemma deferred_closure_frame p abs w :
  Q (pid p) -> lazy_all Q w -> frame_post Q w (deferred_closure mk p abs w).
Proof.
  intros Hp Hl. unfold deferred_closure.
  apply frame_and_then; [ | intros w1 _ Hl1; apply mk_frame; exact Hl1].
  destruct (negb (bool_decide (pid p ∈ registered (reg w)))
            || bool_decide (is_Some (deferred (reg w) !! abs))).
  - apply frame_and_then; [apply provider_Register_frame; assumption | ].
    intros w1 _ Hl1. cbv zeta.
    set (w2 := on_reg _ w1).
    assert (Hl2 : lazy_all Q w2)
      by (apply (lazy_all_tables Q w1); [reflexivity | reflexivity | exact Hl1]).
    assert (H2 : frame_post Q w1 (w2, Ok VNil)).
    { apply (frame_step Q w1 w2 (Ok VNil) []); auto.
      symmetry. apply app_nil_r. }
    destruct (booted (reg w2)); [ | exact H2].
    eapply frame_trans; [exact H2 | ].
    apply provider_Boot_frame; assumption.
  - apply frame_refl. exact Hl.
Qed.

Lemma call_frame f w :
  factory_ok Q f -> lazy_all Q w -> frame_post Q w (call_ mk f w).
Proof.
  intros Hf Hl. destruct f as [ | b | p abs]; simpl.
  - apply frame_refl. exact Hl.
  - apply body_frame. exact Hl.
  - apply deferred_closure_frame; assumption.
Qed.

Lemma runFactory_frame key f singleton w :
  factory_ok Q f -> lazy_all Q w ->
  frame_post Q w (runFactory_ mk key f singleton w).
Proof.
  intros Hf Hl. unfold runFactory_. fold (building key w).
  assert (Hlb : lazy_all Q (building key w))
    by (apply (lazy_all_tables Q w); [reflexivity | reflexivity | exact Hl]).
  apply (frame_trans Q w (building key w) (Ok VNil)).
  { apply frame_silent; [reflexivity | reflexivity | exact Hlb]. }
  apply frame_and_then; [apply call_frame; assumption | ].
  intros w2 v2 Hl2.
  destruct (buildStack (app w2)); [apply frame_refl; exact Hl2 | ].
  cbv zeta.
  destruct singleton;
    (eapply frame_quiet; [reflexivity | | reflexivity | apply pev_resolved]);
    apply (lazy_all_tables Q w2); try reflexivity; exact Hl2.
Qed.

Lemma make_step_frame abstract w :
  lazy_all Q w -> frame_post Q w (make_ mk abstract w).
Proof.
  intros Hl. unfold make_. fold (contextual_for w abstract).
  destruct (instances (app w) !! canonical (app w) abstract).
  - apply frame_refl. exact Hl.
  - destruct (negb _).
    + apply runFactory_frame; [ | exact Hl].
      apply lazy_all_contextual. exact Hl.
    + destruct (bindings (app w) !! canonical (app w) abstract) as [b | ] eqn:Hb.
      * apply runFactory_frame; [ | exact Hl].
        apply (lazy_all_binding Q w _ b Hl Hb).
      * apply frame_refl. exact Hl.
Qed.

End FrameDiscipline.

Lemma make_frame (Q : nat -> Prop) (fuel : nat) :
  forall abstract w, lazy_all Q w -> frame_post Q w (make fuel abstract w).
Proof.
  induction fuel as [ | n IH]; intros abstract w Hl.
  - apply frame_refl. exact Hl.
  - rewrite make_S. apply make_step_frame; assumption.
Qed.

(** ** Booting *)

Lemma lazy_all_weaken (Q Q' : nat -> Prop) (w : World) :
  (forall q, Q q -> Q' q) -> lazy_all Q w -> lazy_all Q' w.
Proof.
  intros HQ. unfold lazy_all. intros [Hb Hc]. split.
  - intros k b Hk. specialize (Hb k b Hk). simpl in *.
    destruct (b_factory b); simpl in *; auto.
  - intros k m Hk j f Hj. specialize (Hc k m Hk j f Hj). simpl in *.
    destruct f; simpl in *; auto.
Qed.

Lemma eager_boots_app (E : list nat) (d1 d2 : list event) :
  eager_boots E (d1 ++ d2) = eager_boots E d1 ++ eager_boots E d2.
Proof.
  induction d1 as [ | e d1 IH]; simpl; [reflexivity | ].
  destruct e; try exact IH.
  destruct (bool_decide (provider ∈ E)); simpl; rewrite IH; reflexivity.
Qed.

Lemma eager_boots_none (E : list nat) (delta : list event) :
  Forall (pev (fun q => q ∉ E)) delta -> eager_boots E delta = [].
Proof.
  induction 1 as [ | e d He _ IH]; simpl; [reflexivity | ].
  destruct e; try exact IH. simpl in He.
  rewrite bool_decide_eq_false_2 by exact He. exact IH.
Qed.

Lemma boot_calls_in_app (p : nat) (d1 d2 : list event) :
  boot_calls_in p (d1 ++ d2) = (boot_calls_in p d1 + boot_calls_in p d2)%nat.
Proof. unfold boot_calls_in. rewrite filter_app, length_app. reflexivity. Qed.

Lemma boot_calls_in_none (p : nat) (delta : list event) :
  Forall (pev (fun q => q <> p)) delta -> boot_calls_in p delta = 0%nat.
Proof.
  unfold boot_calls_in.
  induction 1 as [ | e d He _ IH]; [reflexivity | ].
  rewrite filter_cons. destruct (decide (is_boot p e = true)) as [Hb | Hb]; [ | exact IH].
  exfalso. destruct e; simpl in Hb; try discriminate.
  simpl in He. apply Nat.eqb_eq in Hb. congruence.
Qed.

Lemma boot_calls_in_boot (p : nat) : boot_calls_in p [EvBoot p] = 1%nat.
Proof.
  unfold boot_calls_in.
  rewrite filter_cons_True by (simpl; apply Nat.eqb_refl). reflexivity.
Qed.

Lemma boot_calls_in_register (p q : nat) : boot_calls_in p [EvRegister q] = 0%nat.
Proof.
  unfold boot_calls_in.
  rewrite filter_cons_False by (simpl; discriminate). reflexivity.
Qed.

(** The body of a provider method, run by [make] with any fuel. *)
Lemma actions_run_frame (Q : nat -> Prop) (fuel : nat) (l : list action) (w : World) :
  lazy_all Q w -> frame_post Q w (actions_ (make fuel) l w).
Proof. apply actions_frame. apply make_frame. Qed.

(** The loop of [Boot]: each provider of the list is booted once, in
    order, and the bodies boot no provider of [E]. *)
Lemma boot_loop_spec (fuel : nat) (E : list nat) (R : gset nat)
    (ps : list ServiceProvider) :
  forall w w' u,
    Forall (fun p => pid p ∈ E) ps ->
    lazy_all (fun q => q ∈ R /\ q ∉ E) w ->
    boot_loop (make fuel) ps w = (w', Ok u) ->
    eager (reg w') = eager (reg w) /\
    booted (reg w') = booted (reg w) /\
    registered (reg w') = registered (reg w) /\
    lazy_all (fun q => q ∈ R /\ q ∉ E) w' /\
    exists delta, trace w' = trace w ++ delta /\ eager_boots E delta = map pid ps.
Proof.
  induction ps as [ | p ps IH]; intros w w' u HE Hl Hrun; simpl in Hrun.
  - injection Hrun as <- _.
    split; [ | split; [ | split; [ | split]]]; try reflexivity; try exact Hl.
    exists []. split; [symmetry; apply app_nil_r | reflexivity].
  - apply and_then_inv in Hrun as (w1 & v1 & Hp & Hrest).
    inversion HE as [ | ? ? HpE HE']; subst.
    unfold provider_Boot in Hp.
    assert (Hl0 : lazy_all (fun q => q ∈ R /\ q ∉ E) (emit [EvBoot (pid p)] w))
      by (apply (lazy_all_tables _ w); [reflexivity | reflexivity | exact Hl]).
    pose proof (actions_run_frame _ fuel (BootBody p) _ Hl0) as Hf.
    rewrite Hp in Hf. destruct Hf as (He1 & Hb1 & Hr1 & Hl1 & d1 & Ht1 & Hd1).
    simpl in He1, Hb1, Hr1, Hl1, Ht1.
    destruct (IH w1 w' u HE' Hl1 Hrest) as (He2 & Hb2 & Hr2 & Hl2 & d2 & Ht2 & Hd2).
    split; [ | split; [ | split; [ | split]]]; try congruence; try exact Hl2.
    exists (EvBoot (pid p) :: d1 ++ d2). split.
    + rewrite Ht2, Ht1. rewrite <- !app_assoc. reflexivity.
    + simpl. rewrite bool_decide_eq_true_2 by exact HpE.
      rewrite eager_boots_app, Hd2.
      rewrite (eager_boots_none E d1); [reflexivity | ].
      eapply Forall_impl; [exact Hd1 | ].
      intros e He. destruct e; simpl in *; tauto.
Qed.

Lemma pid_in_map (p : ServiceProvider) (l : list ServiceProvider) :
  p ∈ l -> pid p ∈ map pid l.
Proof.
  intros H. apply list_elem_of_In. apply in_map. apply list_elem_of_In. exact H.
Qed.

(** Late registration of an eager provider on a booted registry. *)
Lemma Register_late (fuel : nat) (p : ServiceProvider) (w w' : World) (u : value) :
  booted (reg w) = true ->
  IsDeferred p = false ->
  pid p ∉ registered (reg w) ->
  lazy_all (fun q => q <> pid p) w ->
  Register fuel p w = (w', Ok u) ->
  eager (reg w') = eager (reg w) ++ [p] /\
  booted (reg w') = true /\
  exists delta, trace w' = trace w ++ delta /\ boot_calls_in (pid p) delta = 1%nat.
Proof.
  intros Hb Hd Hn Hl Hrun. unfold Register, Register_ in Hrun.
  rewrite bool_decide_eq_false_2 in Hrun by exact Hn.
  rewrite Hd in Hrun.
  apply and_then_inv in Hrun as (w2 & v2 & Hreg & Hrun).
  unfold provider_Register in Hreg.
  match type of Hreg with actions_ _ _ ?w0 = _ => set (w1 := w0) in * end.
  assert (Hl1 : lazy_all (fun q => q <> pid p) w1)
    by (apply (lazy_all_tables _ w); [reflexivity | reflexivity | exact Hl]).
  pose proof (actions_run_frame _ fuel (RegisterBody p) w1 Hl1) as Hf.
  rewrite Hreg in Hf. destruct Hf as (He2 & Hb2 & _ & Hl2 & d1 & Ht2 & Hd1).
  simpl in He2, Hb2, Hl2, Ht2.
  cbv zeta in Hrun.
  match type of Hrun with context [provider_Boot _ _ ?w0] => set (w3 := w0) in * end.
  assert (Hb3 : booted (reg w3) = true) by (simpl; rewrite Hb2; exact Hb).
  rewrite Hb3 in Hrun. unfold provider_Boot in Hrun.
  match type of Hrun with actions_ _ _ ?w0 = _ => set (w4 := w0) in * end.
  assert (Hl4 : lazy_all (fun q => q <> pid p) w4)
    by (apply (lazy_all_tables _ w2); [reflexivity | reflexivity | exact Hl2]).
  pose proof (actions_run_frame _ fuel (BootBody p) w4 Hl4) as Hf.
  rewrite Hrun in Hf. destruct Hf as (He5 & Hb5 & _ & _ & d2 & Ht5 & Hd2).
  simpl in He5, Hb5, Ht5.
  split; [rewrite He5, He2; reflexivity | ].
  split; [rewrite Hb5, Hb2; exact Hb | ].
  exists ([EvRegister (pid p)] ++ d1 ++ [EvBoot (pid p)] ++ d2). split.
  - rewrite Ht5, Ht2. rewrite <- !app_assoc. reflexivity.
  - rewrite !boot_calls_in_app.
    rewrite (boot_calls_in_none (pid p) d1 Hd1), (boot_calls_in_none (pid p) d2 Hd2).
    rewrite boot_calls_in_boot, boot_calls_in_register. reflexivity.
Qed.

(** C9: on a registry that has not booted, a [Boot] that returns has
    called [Boot] on each eager provider once, in registration order
    (closures run by the provider bodies boot no eager provider); any
    further [Boot] returns at once and changes nothing; an eager provider
    registered afterwards is appended to the eager list and its [Boot] is
    called once during that [Register]. *)
Theorem C9_boot_once (fuel : nat) (w w' : World) (u : value)
    (Hwf : registry_wf w)
    (Hnot : booted (reg w) = false)
    (Hboot : Boot fuel w = (w', Ok u)) :
  let E := map pid (eager (reg w)) in
  booted (reg w') = true /\
  eager (reg w') = eager (reg w) /\
  NoDup E /\
  (exists delta, trace w' = trace w ++ delta /\ eager_boots E delta = E) /\
  (forall fuel', Boot fuel' w' = (w', Ok VNil)) /\
  (forall fuel' p w'' u',
     IsDeferred p = false ->
     pid p ∉ registered (reg w') ->
     Register fuel' p w' = (w'', Ok u') ->
     eager (reg w'') = eager (reg w') ++ [p] /\
     exists delta, trace w'' = trace w' ++ delta /\
                   boot_calls_in (pid p) delta = 1%nat).
Proof.
  intros E. destruct Hwf as (Hnd & Hreg & Hl).
  unfold Boot, Boot_ in Hboot. rewrite Hnot in Hboot. cbv zeta in Hboot.
  match type of Hboot with boot_loop _ _ ?w0 = _ => set (w1 := w0) in * end.
  assert (Hl1 : lazy_all (fun q => q ∈ registered (reg w) /\ q ∉ E) w1)
    by (apply (lazy_all_tables _ w); [reflexivity | reflexivity | exact Hl]).
  assert (HE : Forall (fun p => pid p ∈ E) (eager (reg w1))).
  { apply Forall_forall. intros p Hp. apply pid_in_map. exact Hp. }
  destruct (boot_loop_spec fuel E (registered (reg w)) (eager (reg w1)) w1 w' u
              HE Hl1 Hboot) as (He & Hb & Hr & Hl' & delta & Ht & Hd).
  simpl in He, Hb, Hr, Ht.
  split; [exact Hb | ]. split; [exact He | ]. split; [exact Hnd | ].
  split; [exists delta; split; [exact Ht | exact Hd] | ].
  split.
  - intros fuel'. unfold Boot, Boot_. rewrite Hb. reflexivity.
  - intros fuel' p w'' u' Hdef Hfresh Hrun.
    assert (Hlp : lazy_all (fun q => q <> pid p) w').
    { apply (lazy_all_weaken
               (fun q => q ∈ registered (reg w) /\ q ∉ E) (fun q => q <> pid p) w');
        [ | exact Hl'].
      intros q [Hq _] ->. apply Hfresh. rewrite Hr. exact Hq. }
    destruct (Register_late fuel' p w' w'' u' Hb Hdef Hfresh Hlp Hrun)
      as (He'' & _ & d & Ht'' & Hc).
    split; [exact He'' | ]. exists d. split; assumption.
Qed.

(** ** The registry invariant is kept by the registry *)

Lemma registry_wf_New : registry_wf New.
Proof.
  split; [constructor | split].
  - intros p Hp. inversion Hp.
  - split.
    + intros k b Hk. vm_compute in Hk. discriminate.
    + intros k m Hk. vm_compute in Hk. discriminate.
Qed.

Lemma intercept_loop_frame (Q : nat -> Prop) (fuel : nat) (p : ServiceProvider)
    (abstracts : list string) :
  Q (pid p) ->
  forall w, lazy_all Q w ->
  frame_post Q w (intercept_loop (make fuel) p abstracts w).
Proof.
  intros Hp. induction abstracts as [ | abs rest IH]; intros w Hl; simpl.
  - apply frame_refl. exact Hl.
  - apply frame_and_then.
    + apply bind_frame; [apply make_frame | exact Hp | exact Hl].
    + intros w1 _ Hl1. apply IH. exact Hl1.
Qed.

Lemma registry_wf_intro (w : World) (E : list nat) (R : gset nat) :
  map pid (eager (reg w)) = E ->
  registered (reg w) = R ->
  NoDup E ->
  (forall q, q ∈ E -> q ∈ R) ->
  lazy_all (fun q => q ∈ R /\ q ∉ E) w ->
  registry_wf w.
Proof.
  intros HE HR Hnd Hsub Hl. unfold registry_wf. rewrite HE, HR.
  split; [exact Hnd | split; [ | exact Hl]].
  intros p Hp. apply Hsub. rewrite <- HE. apply pid_in_map. exact Hp.
Qed.

Lemma registry_wf_pids (w : World) :
  registry_wf w ->
  forall q, q ∈ map pid (eager (reg w)) -> q ∈ registered (reg w).
Proof.
  intros (_ & Hreg & _) q Hq.
  apply list_elem_of_In, in_map_iff in Hq as (p & <- & Hp).
  apply Hreg. apply list_elem_of_In. exact Hp.
Qed.

(** [Register] keeps the invariant, whatever the provider and however the
    call ends. *)
Lemma Register_wf (fuel : nat) (p : ServiceProvider) (w w' : World) (o : outcome) :
  registry_wf w -> Register fuel p w = (w', o) -> registry_wf w'.
Proof.
  intros Hwf Hrun. pose proof (registry_wf_pids w Hwf) as Hsub.
  destruct Hwf as (Hnd & Hreg & Hl).
  set (E := map pid (eager (reg w))) in *.
  set (R := registered (reg w)) in *.
  unfold Register, Register_ in Hrun.
  destruct (bool_decide (pid p ∈ registered (reg w))) eqn:Hdec.
  { injection Hrun as <- _. split; [exact Hnd | split; [exact Hreg | exact Hl]]. }
  apply bool_decide_eq_false in Hdec. fold R in Hdec.
  assert (HpE : pid p ∉ E) by (intros Hp; apply Hdec, Hsub, Hp).
  cbv zeta in Hrun.
  destruct (IsDeferred p).
  - (* deferred: the lazy bindings are installed *)
    set (Q := fun q => q ∈ {[pid p]} ∪ R /\ q ∉ E).
    match type of Hrun with interceptDeferred_ _ _ ?w0 = _ => set (w2 := w0) in * end.
    assert (Hl2 : lazy_all Q w2).
    { apply (lazy_all_tables Q w); [reflexivity | reflexivity | ].
      apply (lazy_all_weaken (fun q => q ∈ R /\ q ∉ E) Q w); [ | exact Hl].
      intros q [Hq Hn]. split; [apply elem_of_union; right; exact Hq | exact Hn]. }
    assert (HQp : Q (pid p)).
    { split; [apply elem_of_union; left; apply elem_of_singleton; reflexivity | exact HpE]. }
    pose proof (intercept_loop_frame Q fuel p (Provides p) HQp w2 Hl2) as Hf.
    unfold interceptDeferred_ in Hrun. rewrite Hrun in Hf.
    destruct Hf as (He & _ & Hr & Hl' & _). simpl in He, Hr.
    apply (registry_wf_intro w' E ({[pid p]} ∪ R)); auto.
    + rewrite He. reflexivity.
    + intros q Hq. apply Hsub in Hq. apply elem_of_union; right; exact Hq.
  - (* eager: Register runs now, Boot too when the registry has booted *)
    set (Q := fun q => q ∈ {[pid p]} ∪ R /\ q ∉ E ++ [pid p]).
    assert (HQ : forall q, q ∈ R /\ q ∉ E -> Q q).
    { intros q [Hq Hn]. split; [apply elem_of_union; right; exact Hq | ].
      intros Hin. apply elem_of_app in Hin as [Hin | Hin]; [exact (Hn Hin) | ].
      apply list_elem_of_singleton in Hin. subst q. exact (Hdec Hq). }
    assert (HQE : forall q, Q q -> q ∈ {[pid p]} ∪ R /\ q ∉ E).
    { intros q [Hq Hn]. split; [exact Hq | ].
      intros Hin. apply Hn. apply elem_of_app. left. exact Hin. }
    unfold provider_Register in Hrun.
    match type of Hrun with context [actions_ _ (RegisterBody p) ?w0] =>
      set (w1 := w0) in * end.
    assert (Hl1 : lazy_all Q w1).
    { apply (lazy_all_tables Q w); [reflexivity | reflexivity | ].
      apply (lazy_all_weaken (fun q => q ∈ R /\ q ∉ E) Q w HQ Hl). }
    pose proof (actions_run_frame Q fuel (RegisterBody p) w1 Hl1) as Hf.
    destruct (actions_ (make fuel) (RegisterBody p) w1) as [w2 o2].
    destruct Hf as (He2 & _ & Hr2 & Hl2 & _). simpl in He2, Hr2, Hl2.
    assert (Hfail : o = o2 -> w' = w2 -> registry_wf w').
    { intros _ ->. apply (registry_wf_intro w2 E ({[pid p]} ∪ R)); auto.
      - rewrite He2. reflexivity.
      - intros q Hq. apply Hsub in Hq. apply elem_of_union; right; exact Hq.
      - apply (lazy_all_weaken Q _ w2 HQE Hl2). }
    destruct o2 as [v2 | e | | ]; simpl in Hrun;
      [ | injection Hrun as <- <-; apply Hfail; reflexivity
        | injection Hrun as <- <-; apply Hfail; reflexivity
        | injection Hrun as <- <-; apply Hfail; reflexivity ].
    match type of Hrun with context [provider_Boot _ _ ?w0] => set (w3 := w0) in * end.
    assert (Hl3 : lazy_all Q w3)
      by (apply (lazy_all_tables Q w2); [reflexivity | reflexivity | exact Hl2]).
    assert (Hgoal : forall w4, eager (reg w4) = eager (reg w3) ->
                      registered (reg w4) = registered (reg w3) ->
                      lazy_all Q w4 -> registry_wf w4).
    { intros w4 He4 Hr4 Hl4.
      apply (registry_wf_intro w4 (E ++ [pid p]) ({[pid p]} ∪ R)).
      - rewrite He4. simpl. rewrite He2. apply map_app.
      - rewrite Hr4. simpl. exact Hr2.
      - apply NoDup_app. split; [exact Hnd | split].
        + intros q Hq Hin. apply list_elem_of_singleton in Hin. subst q. exact (HpE Hq).
        + apply NoDup_singleton.
      - intros q Hq. apply elem_of_app in Hq as [Hq | Hq].
        + apply Hsub in Hq. apply elem_of_union; right; exact Hq.
        + apply list_elem_of_singleton in Hq. subst q.
          apply elem_of_union; left; apply elem_of_singleton; reflexivity.
      - exact Hl4. }
    destruct (booted (reg w2)).
    + unfold provider_Boot in Hrun.
      match type of Hrun with actions_ _ _ ?w0 = _ => set (w4 := w0) in * end.
      assert (Hl4 : lazy_all Q w4)
        by (apply (lazy_all_tables Q w3); [reflexivity | reflexivity | exact Hl3]).
      pose proof (actions_run_frame Q fuel (BootBody p) w4 Hl4) as Hf.
      rewrite Hrun in Hf. destruct Hf as (He5 & _ & Hr5 & Hl5 & _).
      apply Hgoal; assumption.
    + injection Hrun as <- _. apply Hgoal; [reflexivity | reflexivity | exact Hl3].
Qed.

(** C9 on a registry with two eager providers. *)
Lemma C9_boot_once_witness :
  registry_wf two_eager /\
  booted (reg two_eager) = false /\
  exists delta,
    trace (fst (Boot 5 two_eager)) = trace two_eager ++ delta /\
    eager_boots [1; 2]%nat delta = [1; 2]%nat.
Proof.
  assert (Hwf : registry_wf two_eager).
  { unfold two_eager.
    eapply Register_wf; [ | apply surjective_pairing].
    eapply Register_wf; [apply registry_wf_New | apply surjective_pairing]. }
  assert (Hboot : Boot 5 two_eager = (fst (Boot 5 two_eager), Ok VNil)).
  { rewrite (surjective_pairing (Boot 5 two_eager)) at 1.
    f_equal. }
  split; [exact Hwf | ]. split; [vm_compute; reflexivity | ].
  destruct (C9_boot_once 5 two_eager (fst (Boot 5 two_eager)) VNil
              Hwf eq_refl Hboot) as (_ & _ & _ & H & _).
  exact H.
Defined.

(** ** Deferred providers *)

(** The guard of the lazy closure looks at the pending marker of its own
    key: as long as that marker is set, the provider is registered, whether
    or not it has been registered through another key before. *)
Lemma deferred_closure_pending (mk : string -> World -> result)
    (p : ServiceProvider) (abs : string) (w : World) :
  is_Some (deferred (reg w) !! abs) ->
  deferred_closure mk p abs w
  = (provider_Register mk p w >>= fun w1 _ =>
     let w2 := on_reg (fun r =>
       mkRegistry (eager r) (delete abs (deferred r)) (booted r) (registered r)) w1 in
     if booted (reg w2) then provider_Boot mk p w2 else ok w2)
    >>= fun w' _ => mk abs w'.
Proof.
  intros H. unfold deferred_closure.
  rewrite (bool_decide_eq_true_2 _ H), orb_true_r. reflexivity.
Qed.

(** C1: the closure of [interceptDeferred] registers the provider
    whenever the pending marker of its own key is still set.  A provider
    whose [Register] rebinds every key it declares is registered once: the
    other closures are overwritten before they can run.  A provider whose
    [Register] leaves the closure of a declared key in place is registered
    again when that key is resolved: after [Make("alpha")] and
    [Make("beta")], [Register] of [partial_deferred] has run twice (and the
    second resolution never returns), and [Register] of
    [contextual_deferred] has run twice with both resolutions returning. *)
Theorem C1_deferred_register_runs_twice :
  (let '(w0, w1, r) := resolve_both multi_deferred in
   register_calls 1 w0 = 0 /\ register_calls 1 w1 = 1 /\
   register_calls 1 (fst r) = 1 /\ snd r = Ok (VStr "b"))%nat /\
  (let '(w0, w1, r) := resolve_both partial_deferred in
   register_calls 2 w0 = 0 /\ register_calls 2 w1 = 1 /\
   register_calls 2 (fst r) = 2 /\ snd r = OutOfFuel)%nat /\
  (let '(w0, w1, r) := resolve_both contextual_deferred in
   register_calls 3 w0 = 0 /\ register_calls 3 w1 = 1 /\
   register_calls 3 (fst r) = 2 /\ snd r = Ok (VStr "b"))%nat.
Proof. vm_compute. repeat split. Qed.

(** * Further properties of the container *)

(** ** Aliases *)

Lemma Alias_ok (abstract alias : string) (w : World) :
  abstract <> alias ->
  Alias abstract alias w
  = ok (on_app (fun c => set_aliases (<[alias := canonical c abstract]>) c) w).
Proof.
  intros Hne. unfold Alias.
  destruct (String.eqb_spec abstract alias) as [Heq | _]; [contradiction | reflexivity].
Qed.

Lemma canonical_after_Alias (abstract alias x : string) (w : World) :
  canonical (app (on_app (fun c => set_aliases (<[alias := canonical c abstract]>) c) w)) x
  = if decide (alias = x) then canonical (app w) abstract else canonical (app w) x.
Proof.
  unfold canonical at 1. simpl.
  destruct (decide (alias = x)) as [-> | Hne].
  - rewrite lookup_insert_eq. reflexivity.
  - rewrite lookup_insert_ne by exact Hne. reflexivity.
Qed.

(** X1: [Alias(abstract, alias)] stores the canonical key of [abstract], so
    an alias of an alias points at the final key: after [Alias(a, b)] and
    [Alias(b, c)] the names [b] and [c] both resolve to what [a] resolved
    to; aliasing a name to itself panics and changes nothing. *)
Theorem Alias_of_alias_is_flattened (a b c : string) (w : World)
    (Hab : a <> b) (Hbc : b <> c) :
  exists w2,
    (Alias a b w >>= fun w1 _ => Alias b c w1) = (w2, Ok VNil) /\
    canonical (app w2) c = canonical (app w) a /\
    canonical (app w2) b = canonical (app w) a /\
    (forall x, x <> b -> x <> c -> canonical (app w2) x = canonical (app w) x) /\
    Alias a a w = (w, Panicked (SelfAlias a)).
Proof.
  rewrite (Alias_ok a b w Hab). cbn [and_then ok].
  rewrite (Alias_ok b c _ Hbc). eexists. split; [reflexivity | ].
  rewrite !canonical_after_Alias.
  split; [ | split; [ | split]].
  - repeat case_decide; congruence.
  - repeat case_decide; congruence.
  - intros x Hxb Hxc. rewrite !canonical_after_Alias.
    repeat case_decide; congruence.
  - unfold Alias. rewrite String.eqb_refl. reflexivity.
Qed.

Lemma Alias_of_alias_is_flattened_witness :
  canonical (app (fst (Alias "cache" "store" New >>= fun w1 _ =>
                       Alias "store" "kv" w1))) "kv" = "cache".
Proof.
  assert (H1 : "cache" <> "store") by discriminate.
  assert (H2 : "store" <> "kv") by discriminate.
  destruct (Alias_of_alias_is_flattened "cache" "store" "kv" New H1 H2)
    as (w2 & Hrun & Hc & _).
  rewrite Hrun. simpl fst. rewrite Hc. reflexivity.
Defined.

(** X2: the alias table is read once per lookup and never rewritten: when
    the target of an alias is itself aliased later, the older alias keeps
    pointing at the old key, so the two names resolve different keys. *)
Theorem Alias_is_not_followed (a b c : string) (w : World)
    (Hab : a <> b) (Hca : c <> a) (Hcb : c <> b)
    (Ha : aliases (app w) !! a = None)
    (Hc : aliases (app w) !! c = None) :
  exists w2,
    (Alias a b w >>= fun w1 _ => Alias c a w1) = (w2, Ok VNil) /\
    canonical (app w2) b = a /\
    canonical (app w2) a = c.
Proof.
  rewrite (Alias_ok a b w Hab). cbn [and_then ok].
  rewrite (Alias_ok c a _ Hca). eexists. split; [reflexivity | ].
  assert (Hca' : canonical (app w) a = a) by (unfold canonical; rewrite Ha; reflexivity).
  assert (Hcc : canonical (app w) c = c) by (unfold canonical; rewrite Hc; reflexivity).
  rewrite !canonical_after_Alias.
  split; repeat case_decide; congruence.
Qed.

Lemma Alias_is_not_followed_witness :
  exists w2,
    (Alias "cache" "store" New >>= fun w1 _ => Alias "redis" "cache" w1) = (w2, Ok VNil) /\
    canonical (app w2) "store" = "cache" /\
    canonical (app w2) "cache" = "redis".
Proof.
  apply (Alias_is_not_followed "cache" "store" "redis" New);
    try discriminate; vm_compute; reflexivity.
Defined.

(** X3: outside a build, a bound key is resolved alike under its alias and
    under its own name: after [Alias(abstract, alias)] both calls of
    [Make] take the same step, with the same result and the same state. *)
Theorem Make_through_alias (fuel : nat) (abstract alias : string) (w w' : World)
    (u : value)
    (Halias : Alias abstract alias w = (w', Ok u))
    (Htop : buildStack (app w) = [])
    (Hbound : Bound (app w') abstract = true) :
  canonical (app w') alias = canonical (app w') abstract /\
  Make (S fuel) alias w' = Make (S fuel) abstract w'.
Proof.
  assert (Hne : abstract <> alias).
  { intros ->. unfold Alias in Halias. rewrite String.eqb_refl in Halias. discriminate. }
  rewrite (Alias_ok abstract alias w Hne) in Halias. injection Halias as <- _.
  set (w' := on_app _ w) in *.
  assert (Hk : canonical (app w') alias = canonical (app w') abstract).
  { unfold w'. rewrite !canonical_after_Alias.
    repeat case_decide; congruence. }
  split; [exact Hk | ].
  unfold Make. rewrite !make_unfold. cbv zeta. rewrite Hk.
  rewrite !(contextual_for_toplevel _ w') by exact Htop. simpl negb. cbv iota.
  destruct (instances (app w') !! canonical (app w') abstract) as [inst | ] eqn:Hi;
    [reflexivity | ].
  destruct (bindings (app w') !! canonical (app w') abstract) as [b | ] eqn:Hb;
    [reflexivity | ].
  exfalso. unfold Bound in Hbound. rewrite Hi, Hb in Hbound.
  rewrite !bool_decide_eq_false_2 in Hbound by (intros [? ?]; discriminate).
  discriminate.
Qed.

Lemma Make_through_alias_witness :
  snd (Make 2 "store" (fst (Alias "cache" "store"
         (fst (Singleton 1 "cache" (Closure (FReturn (VStr "redis"))) New)))))
  = Ok (VStr "redis").
Proof.
  set (w := fst (Singleton 1 "cache" (Closure (FReturn (VStr "redis"))) New)).
  assert (Ha : Alias "cache" "store" w = (fst (Alias "cache" "store" w), Ok VNil))
    by (vm_compute; reflexivity).
  assert (Ht : buildStack (app w) = []) by (vm_compute; reflexivity).
  assert (Hb : Bound (app (fst (Alias "cache" "store" w))) "cache" = true)
    by (vm_compute; reflexivity).
  destruct (Make_through_alias 1 "cache" "store" w _ VNil Ha Ht Hb) as [_ H].
  rewrite H. vm_compute. reflexivity.
Defined.

(** ** Introspection *)

Lemma elem_of_keys {A : Type} (m : gmap string A) (k : string) :
  k ∈ (map_to_list m).*1 <-> is_Some (m !! k).
Proof.
  rewrite list_elem_of_fmap. split.
  - intros ([k' x] & -> & Hin). apply elem_of_map_to_list in Hin. eexists; exact Hin.
  - intros [x Hx]. exists (k, x). split; [reflexivity | ].
    apply elem_of_map_to_list. exact Hx.
Qed.

Lemma Bound_true (c : Container) (abstract : string) :
  Bound c abstract = true <->
  is_Some (bindings c !! canonical c abstract)
  \/ is_Some (instances c !! canonical c abstract).
Proof.
  unfold Bound. rewrite orb_true_iff, !bool_decide_eq_true. reflexivity.
Qed.

(** X4: [Bindings] lists each registered key once, whatever the order: a
    key is listed exactly when it has a binding or an instance, and
    [Bound(abstract)] says whether the canonical key of [abstract] is
    listed. *)
Theorem Bindings_lists_bound_keys (c : Container) :
  NoDup (Bindings c) /\
  (forall k, k ∈ Bindings c <->
             is_Some (bindings c !! k) \/ is_Some (instances c !! k)) /\
  (forall abstract, Bound c abstract = true <-> canonical c abstract ∈ Bindings c).
Proof.
  assert (Hmem : forall k, k ∈ Bindings c <->
             is_Some (bindings c !! k) \/ is_Some (instances c !! k)).
  { intros k. unfold Bindings.
    rewrite elem_of_app, list_elem_of_filter, !elem_of_keys. split.
    - intros [H | [_ H]]; [left | right]; exact H.
    - intros [H | H]; [left; exact H | ].
      destruct (bindings c !! k) as [b | ] eqn:Hb.
      + left. eexists; reflexivity.
      + right. split; [reflexivity | exact H]. }
  split; [ | split; [exact Hmem | ]].
  - unfold Bindings. apply NoDup_app. split; [apply NoDup_fst_map_to_list | split].
    + intros k Hk Hin. apply elem_of_keys in Hk as [b Hb].
      apply list_elem_of_filter in Hin as [Hnone _]. congruence.
    + apply NoDup_filter. apply NoDup_fst_map_to_list.
  - intros abstract. rewrite Bound_true, Hmem. reflexivity.
Qed.

(** X5: [Forget] removes the binding and the instance of the canonical key
    and nothing else: the key is neither bound nor resolved afterwards and
    a top-level [Make] of it fails as unregistered, other keys keep their
    entries, and the aliases, the observers and the extender chain stay;
    a factory bound to the key again is decorated by the extenders that
    were registered before the [Forget]. *)
Theorem Forget_keeps_extenders (fuel : nat) (abstract : string) (v : value) (w : World) :
  let key := canonical (app w) abstract in
  let w' := Forget abstract w in
  Bound (app w') abstract = false /\
  Resolved (app w') abstract = false /\
  (forall k, k <> key ->
     bindings (app w') !! k = bindings (app w) !! k /\
     instances (app w') !! k = instances (app w) !! k) /\
  aliases (app w') = aliases (app w) /\
  extenders (app w') = extenders (app w) /\
  reboundCallbacks (app w') = reboundCallbacks (app w) /\
  afterResolving (app w') = afterResolving (app w) /\
  trace w' = trace w /\
  (buildStack (app w) = [] ->
   Make (S fuel) abstract w' = (w', Panicked (UnregisteredAbstract abstract)) /\
   forall singleton,
     snd (bind fuel abstract (Closure (FReturn v)) singleton w' >>= fun w1 _ =>
          Make (S fuel) abstract w1)
     = Ok (decorated w key v)).
Proof.
  intros key w'.
  assert (Hk : canonical (app w') abstract = key) by reflexivity.
  assert (Hb : bindings (app w') !! key = None) by (simpl; fold key; apply lookup_delete_eq).
  assert (Hi : instances (app w') !! key = None) by (simpl; fold key; apply lookup_delete_eq).
  split; [unfold Bound; rewrite Hk, Hb, Hi; reflexivity | ].
  split; [unfold Resolved; rewrite Hk, Hi; reflexivity | ].
  split.
  { intros k Hne. simpl. fold key.
    rewrite !lookup_delete_ne by congruence. split; reflexivity. }
  repeat (split; [reflexivity | ]).
  intros Htop. split.
  - unfold Make. rewrite make_unfold. cbv zeta. rewrite Hk, Hi.
    rewrite (contextual_for_toplevel abstract w') by exact Htop.
    cbn [Factory_is_nil negb]. rewrite Hb. reflexivity.
  - intros singleton.
    pose proof (bind_spec fuel abstract (Closure (FReturn v)) singleton w') as HB.
    cbv zeta in HB. rewrite Hk in HB. destruct HB as (Hb2 & Hi2 & ->).
    rewrite Hi. cbn [and_then].
    set (w2 := bind_installed abstract (Closure (FReturn v)) singleton w') in *.
    unfold Make.
    rewrite (make_binding_toplevel fuel abstract w2 _ Hi2 Htop Hb2).
    unfold runFactory. simpl b_factory. simpl b_singleton.
    change (canonical (app w2) abstract) with key.
    rewrite runFactory_value. reflexivity.
Qed.

(** X6: a key that holds a cached instance is served from the cache:
    [Make] under any name whose canonical key it is returns the instance,
    inside a build or outside and whatever contextual entry or binding
    there is, without running a factory or changing the state; the key
    counts as bound and as resolved, and the typed helpers return the
    instance exactly when it has the asserted type. *)
Theorem Cached_instance_is_served (T : value -> bool) (fuel : nat) (name : string)
    (v : value) (w : World)
    (Hcached : instances (app w) !! canonical (app w) name = Some v) :
  Make (S fuel) name w = (w, Ok v) /\
  Bound (app w) name = true /\
  Resolved (app w) name = true /\
  Resolve T (S fuel) name w
    = (w, if T v then Typed v else TypeMismatch name v) /\
  MustResolve T (S fuel) name w
    = (w, MustOk (if T v then Some v else None)).
Proof.
  assert (Hmake : Make (S fuel) name w = (w, Ok v))
    by (apply make_cached; exact Hcached).
  split; [exact Hmake | ].
  split; [apply Bound_true; right; rewrite Hcached; eexists; reflexivity | ].
  split.
  { unfold Resolved. rewrite Hcached. apply bool_decide_eq_true.
    eexists; reflexivity. }
  unfold Resolve, MustResolve. rewrite Hmake.
  destruct (T v); split; reflexivity.
Qed.

Lemma Cached_instance_is_served_witness :
  Make 1 "store" aliased_world = (aliased_world, Ok (VStr "redis")).
Proof.
  apply (Cached_instance_is_served (fun _ => true) 0 "store" (VStr "redis") aliased_world).
  vm_compute. reflexivity.
Defined.

Lemma Forget_keeps_extenders_witness :
  snd (Bind 1 "k" (Closure (FReturn (VStr "new")))
         (Forget "k" (Extend "k" wrapA singleton_resolved)) >>= fun w1 _ =>
       Make 2 "k" w1)
  = Ok (VWrap "A" (VStr "new")).
Proof.
  destruct (Forget_keeps_extenders 1 "k" (VStr "new")
              (Extend "k" wrapA singleton_resolved))
    as (_ & _ & _ & _ & _ & _ & _ & _ & H).
  destruct (H eq_refl) as [_ H']. exact (H' false).
Defined.

(** ** The registry, whatever the closures do *)

Lemma lazy_all_True (w : World) : lazy_all (fun _ => True) w.
Proof.
  split.
  - intros k b _. destruct (b_factory b); exact I.
  - intros k m _ j f _. destruct f; exact I.
Qed.

(** X7: resolution never touches the registry's list of eager providers,
    its booted flag or its set of registered providers, and it only ever
    appends to the trace, however the call ends. *)
Theorem Make_leaves_registry (fuel : nat) (abstract : string) (w : World) :
  eager (reg (fst (Make fuel abstract w))) = eager (reg w) /\
  booted (reg (fst (Make fuel abstract w))) = booted (reg w) /\
  registered (reg (fst (Make fuel abstract w))) = registered (reg w) /\
  exists delta, trace (fst (Make fuel abstract w)) = trace w ++ delta.
Proof.
  destruct (make_frame (fun _ => True) fuel abstract w (lazy_all_True w))
    as (He & Hb & Hr & _ & delta & Ht & _).
  unfold Make. repeat split; try assumption. exists delta. exact Ht.
Qed.

Lemma Register_frame (fuel : nat) (p : ServiceProvider) (w : World) :
  booted (reg (fst (Register fuel p w))) = booted (reg w) /\
  (pid p ∈ registered (reg w) -> Register fuel p w = (w, Ok VNil)) /\
  pid p ∈ registered (reg (fst (Register fuel p w))).
Proof.
  unfold Register, Register_.
  destruct (bool_decide (pid p ∈ registered (reg w))) eqn:Hdec.
  { apply bool_decide_eq_true in Hdec. repeat split; auto. }
  split; [ | split; [intros Hin; apply bool_decide_eq_false in Hdec; contradiction | ]];
  cbv zeta.
  - destruct (IsDeferred p).
    + match goal with |- context [interceptDeferred_ _ _ ?w0] => set (w2 := w0) end.
      destruct (intercept_loop_frame (fun _ => True) fuel p (Provides p) I w2
                  (lazy_all_True w2)) as (_ & Hb & _).
      exact Hb.
    + unfold provider_Register.
      match goal with |- context [actions_ _ (RegisterBody p) ?w0] => set (w1 := w0) end.
      destruct (actions_run_frame (fun _ => True) fuel (RegisterBody p) w1
                  (lazy_all_True w1)) as (_ & Hb1 & _).
      destruct (actions_ (make fuel) (RegisterBody p) w1) as [w2 [v2 | e | | ]];
        simpl in Hb1 |- *; try exact Hb1.
      destruct (booted (reg w2)) eqn:Hb2; [ | simpl; congruence].
      unfold provider_Boot.
      match goal with |- context [actions_ _ (BootBody p) ?w0] => set (w4 := w0) end.
      destruct (actions_run_frame (fun _ => True) fuel (BootBody p) w4
                  (lazy_all_True w4)) as (_ & Hb4 & _).
      rewrite Hb4. simpl. congruence.
  - assert (Hin : pid p ∈ {[pid p]} ∪ registered (reg w))
      by (apply elem_of_union; left; apply elem_of_singleton; reflexivity).
    destruct (IsDeferred p).
    + match goal with |- context [interceptDeferred_ _ _ ?w0] => set (w2 := w0) end.
      destruct (intercept_loop_frame (fun _ => True) fuel p (Provides p) I w2
                  (lazy_all_True w2)) as (_ & _ & Hr & _).
      unfold interceptDeferred_. rewrite Hr. exact Hin.
    + unfold provider_Register.
      match goal with |- context [actions_ _ (RegisterBody p) ?w0] => set (w1 := w0) end.
      destruct (actions_run_frame (fun _ => True) fuel (RegisterBody p) w1
                  (lazy_all_True w1)) as (_ & _ & Hr1 & _).
      destruct (actions_ (make fuel) (RegisterBody p) w1) as [w2 [v2 | e | | ]];
        simpl in Hr1 |- *; try (rewrite Hr1; exact Hin).
      destruct (booted (reg w2)); [ | simpl; rewrite Hr1; exact Hin].
      unfold provider_Boot.
      match goal with |- context [actions_ _ (BootBody p) ?w0] => set (w4 := w0) end.
      destruct (actions_run_frame (fun _ => True) fuel (BootBody p) w4
                  (lazy_all_True w4)) as (_ & _ & Hr4 & _).
      rewrite Hr4. simpl. rewrite Hr1. exact Hin.
Qed.

(** X8: a provider is registered at most once: however the first
    [Register(p)] ends, even with a panic in the provider's [Register] or
    [Boot], every later [Register(p)] returns at once and changes nothing,
    and [Register] never changes the booted flag. *)
Theorem Register_twice_is_once (fuel fuel' : nat) (p : ServiceProvider) (w : World) :
  Register fuel' p (fst (Register fuel p w)) = (fst (Register fuel p w), Ok VNil) /\
  Booted (fst (Register fuel p w)) = Booted w.
Proof.
  destruct (Register_frame fuel p w) as (Hb & _ & Hin).
  split; [ | exact Hb].
  destruct (Register_frame fuel' p (fst (Register fuel p w))) as (_ & Hnoop & _).
  apply Hnoop. exact Hin.
Qed.

Lemma boot_loop_frame (fuel : nat) (ps : list ServiceProvider) :
  forall w, booted (reg (fst (boot_loop (make fuel) ps w))) = booted (reg w).
Proof.
  induction ps as [ | p ps IH]; intros w; simpl; [reflexivity | ].
  unfold provider_Boot.
  match goal with |- context [actions_ _ (BootBody p) ?w0] => set (w1 := w0) end.
  destruct (actions_run_frame (fun _ => True) fuel (BootBody p) w1
              (lazy_all_True w1)) as (_ & Hb & _).
  destruct (actions_ (make fuel) (BootBody p) w1) as [w2 [v2 | e | | ]];
    simpl in Hb |- *; try exact Hb.
  rewrite IH. exact Hb.
Qed.

(** X9: [Boot] sets the booted flag before it calls any provider: however
    the call ends, also when a provider's [Boot] panics half way through
    the list, the registry counts as booted afterwards and every later
    [Boot] returns at once, so the providers after the failing one are
    never booted by [Boot]. *)
Theorem Boot_marks_booted_first (fuel fuel' : nat) (w : World) :
  Booted (fst (Boot fuel w)) = true /\
  Boot fuel' (fst (Boot fuel w)) = (fst (Boot fuel w), Ok VNil).
Proof.
  assert (Hb : booted (reg (fst (Boot fuel w))) = true).
  { unfold Boot, Boot_. destruct (booted (reg w)) eqn:Hw; [exact Hw | ].
    cbv zeta. rewrite boot_loop_frame. reflexivity. }
  split; [exact Hb | ].
  unfold Boot at 1, Boot_ at 1. rewrite Hb. reflexivity.
Qed.

(** The run of [Boot] on a registry whose first provider panics in [Boot]:
    the second provider is not booted, then or later. *)
Lemma Boot_panic_skips_the_rest :
  snd (Boot 3 panicking_boot_world) = Panicked (UnregisteredAbstract "missing") /\
  boot_calls 7 (fst (Boot 3 panicking_boot_world)) = 1%nat /\
  boot_calls 2 (fst (Boot 3 (fst (Boot 3 panicking_boot_world)))) = 0%nat.
Proof. vm_compute. repeat split. Qed.

(** ** Deferred providers at registration *)

Lemma mark_deferred_lookup (p : ServiceProvider) (l : list string) :
  forall (m : gmap string ServiceProvider) (abs : string),
    m !! abs = Some p \/ abs ∈ l ->
    fold_left (fun m abstract => <[abstract := p]> m) l m !! abs = Some p.
Proof.
  induction l as [ | a l IH]; intros m abs H; simpl.
  - destruct H as [H | H]; [exact H | inversion H].
  - apply IH. destruct (decide (a = abs)) as [-> | Hne].
    + left. apply lookup_insert_eq.
    + destruct H as [H | H].
      * left. rewrite lookup_insert_ne by exact Hne. exact H.
      * right. apply elem_of_cons in H as [-> | H]; [contradiction | exact H].
Qed.

(** The loop of [interceptDeferred] on keys that have no cached instance:
    nothing is resolved, each key gets a lazy binding. *)
Lemma intercept_loop_lazy (fuel : nat) (p : ServiceProvider) (abstracts : list string) :
  forall w,
    Forall (fun abs => instances (app w) !! canonical (app w) abs = None) abstracts ->
    exists w',
      intercept_loop (make fuel) p abstracts w = (w', Ok VNil) /\
      reg w' = reg w /\ trace w' = trace w /\ heap w' = heap w /\
      instances (app w') = instances (app w) /\
      aliases (app w') = aliases (app w) /\
      (forall k abs0,
         bindings (app w) !! k = Some (mkBinding (Deferred p abs0) false) ->
         exists abs', bindings (app w') !! k = Some (mkBinding (Deferred p abs') false)) /\
      (forall abs, abs ∈ abstracts ->
         exists abs', bindings (app w') !! canonical (app w) abs
                      = Some (mkBinding (Deferred p abs') false)).
Proof.
  induction abstracts as [ | a rest IH]; intros w Hnone; simpl.
  - exists w. repeat split; try reflexivity.
    + intros k abs0 H. exists abs0. exact H.
    + intros abs H. inversion H.
  - inversion Hnone as [ | ? ? Ha Hrest]; subst.
    pose proof (bind_spec fuel a (Deferred p a) false w) as HB. cbv zeta in HB.
    destruct HB as (Hb2 & Hi2 & Hbind). rewrite Ha in Hbind.
    unfold bind in Hbind. rewrite Hbind. cbn [and_then].
    set (w2 := bind_installed a (Deferred p a) false w) in *.
    assert (Hinst : instances (app w2) = instances (app w)).
    { unfold w2, bind_installed. simpl. apply delete_id. exact Ha. }
    assert (Hrest2 : Forall (fun abs => instances (app w2) !! canonical (app w2) abs = None) rest).
    { rewrite Hinst. exact Hrest. }
    destruct (IH w2 Hrest2) as (w' & Hrun & Hr & Ht & Hh & Hi & Hal & Hkeep & Hnew).
    exists w'. split; [exact Hrun | ].
    split; [rewrite Hr; reflexivity | ].
    split; [rewrite Ht; reflexivity | ].
    split; [rewrite Hh; reflexivity | ].
    split; [rewrite Hi; exact Hinst | ].
    split; [rewrite Hal; reflexivity | ].
    split.
    + intros k abs0 Hk.
      destruct (decide (k = canonical (app w) a)) as [-> | Hne].
      * apply (Hkeep _ a). exact Hb2.
      * apply (Hkeep k abs0). unfold w2, bind_installed. simpl.
        rewrite lookup_insert_ne by congruence. exact Hk.
    + intros abs Hin. apply elem_of_cons in Hin as [-> | Hin].
      * apply (Hkeep _ a). exact Hb2.
      * apply (Hnew abs Hin).
Qed.

(** X10: registering a deferred provider none of whose keys has a cached
    instance runs nothing: the provider's [Register] and [Boot] are not
    called (the trace is unchanged), the eager list and the instance cache
    stay as they were, and every declared key is left with a pending marker
    and a transient lazy binding in place of whatever binding it had. *)
Theorem Register_deferred_is_lazy (fuel : nat) (p : ServiceProvider) (w : World)
    (Hdef : IsDeferred p = true)
    (Hnew : pid p ∉ registered (reg w))
    (Hnone : nothing_cached p w) :
  exists w',
    Register fuel p w = (w', Ok VNil) /\
    trace w' = trace w /\
    Providers w' = Providers w /\
    Booted w' = Booted w /\
    instances (app w') = instances (app w) /\
    forall abs, abs ∈ Provides p ->
      deferred (reg w') !! abs = Some p /\
      exists abs', bindings (app w') !! canonical (app w) abs
                   = Some (mkBinding (Deferred p abs') false).
Proof.
  unfold Register, Register_.
  rewrite bool_decide_eq_false_2 by exact Hnew. rewrite Hdef. cbv zeta.
  match goal with |- context [interceptDeferred_ _ _ ?w0] => set (w2 := w0) end.
  destruct (intercept_loop_lazy fuel p (Provides p) w2 Hnone)
    as (w' & Hrun & Hr & Ht & _ & Hi & _ & _ & Hlazy).
  exists w'. unfold interceptDeferred_.
  split; [exact Hrun | ].
  split; [rewrite Ht; reflexivity | ].
  split; [unfold Providers; rewrite Hr; reflexivity | ].
  split; [unfold Booted; rewrite Hr; reflexivity | ].
  split; [rewrite Hi; reflexivity | ].
  intros abs Hin. split.
  - rewrite Hr. simpl. apply mark_deferred_lookup. right. exact Hin.
  - apply (Hlazy abs Hin).
Qed.

Lemma Register_deferred_is_lazy_witness :
  exists w',
    Register 3 multi_deferred New = (w', Ok VNil) /\
    trace w' = trace New /\
    Providers w' = Providers New.
Proof.
  assert (Hnew : pid multi_deferred ∉ registered (reg New))
    by exact (not_elem_of_empty (C := gset nat) (pid multi_deferred)).
  assert (Hnone : nothing_cached multi_deferred New)
    by (repeat constructor).
  destruct (Register_deferred_is_lazy 3 multi_deferred New eq_refl Hnew Hnone)
    as (w' & Hrun & Ht & Hp & _).
  exists w'. repeat split; assumption.
Defined.

Lemma frame_grows (Q : nat -> Prop) (w : World) (res : result) :
  frame_post Q w res -> exists delta, trace (fst res) = trace w ++ delta.
Proof. intros (_ & _ & _ & _ & delta & Ht & _). exists delta. exact Ht. Qed.

Lemma starts_and_then (e : event) (w : World) (r : result)
    (k : World -> value -> result) :
  (exists delta, trace (fst r) = trace w ++ e :: delta) ->
  (forall w1 v1, exists delta, trace (fst (k w1 v1)) = trace w1 ++ delta) ->
  exists delta, trace (fst (r >>= k)) = trace w ++ e :: delta.
Proof.
  destruct r as [w1 [v1 | f | | ]]; simpl; intros [d Hd] Hk;
    try (exists d; exact Hd).
  destruct (Hk w1 v1) as [d2 Hd2]. exists (d ++ d2).
  rewrite Hd2, Hd. rewrite <- app_assoc. reflexivity.
Qed.

(** Run on a key whose pending marker is set, the lazy closure calls the
    provider's [Register] before anything else. *)
Lemma runFactory_deferred_starts (fuel : nat) (p : ServiceProvider)
    (abs key : string) (w : World) :
  is_Some (deferred (reg w) !! abs) ->
  exists delta,
    trace (fst (runFactory_ (make fuel) key (Deferred p abs) false w))
    = trace w ++ EvRegister (pid p) :: delta.
Proof.
  intros Hpending. unfold runFactory_. fold (building key w).
  change (trace w) with (trace (building key w)).
  apply starts_and_then.
  - cbn [call_]. rewrite deferred_closure_pending by exact Hpending.
    apply starts_and_then; [apply starts_and_then | ].
    + unfold provider_Register.
      destruct (frame_grows _ _ _ (actions_run_frame (fun _ => True) fuel (RegisterBody p)
                  (emit [EvRegister (pid p)] (building key w)) (lazy_all_True _)))
        as [d Hd].
      exists d. rewrite Hd. simpl. rewrite <- app_assoc. reflexivity.
    + intros w1 _. cbv zeta.
      match goal with |- context [provider_Boot _ _ ?w0] => set (w2 := w0) end.
      destruct (booted (reg w2)).
      * unfold provider_Boot.
        destruct (frame_grows _ _ _ (actions_run_frame (fun _ => True) fuel (BootBody p)
                    (emit [EvBoot (pid p)] w2) (lazy_all_True _))) as [d Hd].
        exists ([EvBoot (pid p)] ++ d). rewrite Hd. simpl.
        rewrite <- app_assoc. reflexivity.
      * exists []. simpl. symmetry. apply app_nil_r.
    + intros w1 _.
      apply (frame_grows _ _ _ (make_frame (fun _ => True) fuel abs w1 (lazy_all_True w1))).
  - intros w2 v2. destruct (buildStack (app w2)).
    + exists []. simpl. symmetry. apply app_nil_r.
    + eexists. reflexivity.
Qed.

(** X11: when a key declared by a deferred provider holds a non-nil cached
    instance at the time of registration, the provider is not deferred at
    all: installing the lazy binding of that key rebuilds the key, the
    rebuild runs the lazy closure, and the provider's [Register] is called
    inside the registry's own [Register]. *)
Theorem Register_deferred_resolved_key_activates (fuel : nat) (p : ServiceProvider)
    (abs : string) (rest : list string) (v : value) (w : World)
    (Hdef : IsDeferred p = true)
    (Hnew : pid p ∉ registered (reg w))
    (Hprov : Provides p = abs :: rest)
    (Hcached : instances (app w) !! canonical (app w) abs = Some v)
    (Hnonnil : is_nil v = false)
    (Htop : buildStack (app w) = []) :
  exists delta,
    trace (fst (Register (S fuel) p w)) = trace w ++ EvRegister (pid p) :: delta.
Proof.
  unfold Register, Register_.
  rewrite bool_decide_eq_false_2 by exact Hnew. rewrite Hdef. cbv zeta.
  match goal with |- context [interceptDeferred_ _ _ ?w0] => set (w2 := w0) end.
  unfold interceptDeferred_. rewrite Hprov. cbn [intercept_loop].
  change (trace w) with (trace w2).
  apply starts_and_then.
  2: { intros w1 _.
       apply (frame_grows (fun _ => True) w1).
       apply intercept_loop_frame; [exact I | apply lazy_all_True]. }
  pose proof (bind_spec (S fuel) abs (Deferred p abs) false w2) as HB.
  cbv zeta in HB. destruct HB as (Hb & Hi & Hbind).
  change (canonical (app w2) abs) with (canonical (app w) abs) in *.
  change (instances (app w2)) with (instances (app w)) in Hbind.
  rewrite Hcached in Hbind. unfold bind in Hbind.
  set (w3 := bind_installed abs (Deferred p abs) false w2) in *.
  assert (Hrebuild :
    bind_ (make (S fuel)) abs (Deferred p abs) false w2
    = make (S fuel) abs w3 >>= fun w4 v0 => ok (fireRebound abs v0 w4)).
  { rewrite Hbind. destruct v; try reflexivity. discriminate. }
  rewrite Hrebuild. change (trace w2) with (trace w3).
  apply starts_and_then.
  2: { intros w4 v4. eexists. reflexivity. }
  rewrite (make_binding_toplevel fuel abs w3 _ Hi Htop Hb).
  unfold runFactory. simpl b_factory. simpl b_singleton.
  apply runFactory_deferred_starts.
  exists p. simpl. apply mark_deferred_lookup. right.
  rewrite Hprov. apply elem_of_cons. left. reflexivity.
Qed.

Lemma Register_deferred_resolved_key_activates_witness :
  exists delta,
    trace (fst (Register 3 cache_deferred cache_resolved))
    = trace cache_resolved ++ EvRegister 4 :: delta.
Proof.
  apply (Register_deferred_resolved_key_activates 2 cache_deferred "cache" []
           (VStr "old") cache_resolved);
    try reflexivity.
  exact (not_elem_of_empty (C := gset nat) 4%nat).
Defined.

(** ** Tags *)

Lemma tagged_loop_cached (fuel : nat) (w : World) (abstracts : list string) :
  forall (vs acc : list value),
    Forall2 (fun a v => instances (app w) !! canonical (app w) a = Some v) abstracts vs ->
    tagged_loop (make (S fuel)) abstracts acc w = (w, OkAll (acc ++ vs)).
Proof.
  induction abstracts as [ | a rest IH]; intros vs acc H; inversion H; subst;
    cbn [tagged_loop].
  - rewrite app_nil_r. reflexivity.
  - rewrite (make_cached fuel a w _ ltac:(eassumption)).
    rewrite IH with (vs := l') by assumption.
    rewrite <- app_assoc. reflexivity.
Qed.

(** X12: [Tag] appends to the group, duplicates included, and [Tagged]
    resolves the members in the order they were tagged: when the members
    have cached instances, [Tagged] returns those instances in that order
    and leaves the state as it was; a tag that was never used gives the
    empty slice. *)
Theorem Tagged_in_order (fuel : nat) (tag : string) (abstracts : list string)
    (vs : list value) (w : World)
    (Hcached : Forall2 (fun a v => instances (app w) !! canonical (app w) a = Some v)
                 (default [] (tags (app w) !! tag) ++ abstracts) vs) :
  tags (app (Tag abstracts tag w)) !! tag
    = Some (default [] (tags (app w) !! tag) ++ abstracts) /\
  Tagged (S fuel) tag (Tag abstracts tag w) = (Tag abstracts tag w, OkAll vs) /\
  (forall other, tags (app w) !! other = None -> other <> tag ->
     Tagged fuel other (Tag abstracts tag w) = (Tag abstracts tag w, OkAll [])).
Proof.
  assert (Ht : tags (app (Tag abstracts tag w)) !! tag
               = Some (default [] (tags (app w) !! tag) ++ abstracts))
    by (simpl; apply lookup_insert_eq).
  split; [exact Ht | split].
  - unfold Tagged. rewrite Ht. cbn [default].
    apply (tagged_loop_cached fuel (Tag abstracts tag w) _ vs []). exact Hcached.
  - intros other Hnone Hne. unfold Tagged.
    assert (Ho : tags (app (Tag abstracts tag w)) !! other = None)
      by (simpl; rewrite lookup_insert_ne by congruence; exact Hnone).
    rewrite Ho. reflexivity.
Qed.

Lemma Tagged_in_order_witness :
  Tagged 1 "reports" (Tag ["k"; "container"; "k"] "reports" singleton_resolved)
  = (Tag ["k"; "container"; "k"] "reports" singleton_resolved,
     OkAll [VPtr 0 "T"; VContainer; VPtr 0 "T"]).
Proof.
  apply (Tagged_in_order 0 "reports" ["k"; "container"; "k"]
           [VPtr 0 "T"; VContainer; VPtr 0 "T"] singleton_resolved).
  repeat constructor.
Defined.

(** X13: [Tagged] gives no partial result: outside a build, when the
    members before [a] are cached and [a] is not bound, the call panics
    as unregistered for [a], and what was resolved before is lost. *)
Theorem Tagged_stops_at_unbound (fuel : nat) (tag a : string)
    (before rest : list string) (vs : list value) (w : World)
    (Htag : tags (app w) !! tag = Some (before ++ a :: rest))
    (Hcached : Forall2 (fun x v => instances (app w) !! canonical (app w) x = Some v)
                 before vs)
    (Hunbound : Bound (app w) a = false)
    (Htop : buildStack (app w) = []) :
  Tagged (S fuel) tag w = (w, PanickedAll (UnregisteredAbstract a)).
Proof.
  unfold Tagged. rewrite Htag. cbn [default].
  assert (Hgen : forall acc,
            tagged_loop (make (S fuel)) (before ++ a :: rest) acc w
            = (w, PanickedAll (UnregisteredAbstract a))).
  { clear Htag. revert vs Hcached.
    induction before as [ | x before IH]; intros vs Hcached acc;
      inversion Hcached; subst.
    - change ([] ++ a :: rest) with (a :: rest). cbn [tagged_loop].
      rewrite make_unfold. cbv zeta.
      unfold Bound in Hunbound. apply orb_false_iff in Hunbound as [Hb Hi].
      apply bool_decide_eq_false in Hb. apply bool_decide_eq_false in Hi.
      destruct (instances (app w) !! canonical (app w) a) as [i | ];
        [exfalso; apply Hi; eexists; reflexivity | ].
      rewrite (contextual_for_toplevel a w Htop). cbn [Factory_is_nil negb].
      destruct (bindings (app w) !! canonical (app w) a) as [b | ];
        [exfalso; apply Hb; eexists; reflexivity | reflexivity].
    - change ((x :: before) ++ a :: rest) with (x :: (before ++ a :: rest)).
      cbn [tagged_loop].
      rewrite (make_cached fuel x w _ ltac:(eassumption)).
      eapply IH. eassumption. }
  apply Hgen.
Qed.

Lemma Tagged_stops_at_unbound_witness :
  Tagged 1 "reports" (Tag ["k"; "missing"; "container"] "reports" singleton_resolved)
  = (Tag ["k"; "missing"; "container"] "reports" singleton_resolved,
     PanickedAll (UnregisteredAbstract "missing")).
Proof.
  apply (Tagged_stops_at_unbound 0 "reports" "missing" ["k"] ["container"]
           [VPtr 0 "T"]); try reflexivity.
  repeat constructor.
Defined.

(** ** Transient and singleton bindings *)

Lemma pop_after_alloc (key : string) (w : World) :
  on_app (set_buildStack (@removelast string)) (alloc (building key w)) = alloc w.
Proof.
  destruct w as [[b i a e t c r ar st] rg h tr].
  unfold building, alloc, on_app, set_buildStack; simpl.
  rewrite removelast_last. reflexivity.
Qed.

(** Running a factory that allocates its result. *)
Lemma runFactory_new (mk : string -> World -> result) (key tag : string)
    (singleton : bool) (w : World) :
  let v' := decorated w key (VPtr (heap w) tag) in
  runFactory_ mk key (Closure (FNew tag)) singleton w
  = (fireAfterResolving key v'
       (if singleton then on_app (set_instances (<[key := v']>)) (alloc w) else alloc w),
     Ok v').
Proof.
  intros v'. unfold runFactory_. cbn [call_ body_ and_then].
  fold (building key w).
  assert (Hst : buildStack (app (alloc (building key w))) = buildStack (app w) ++ [key])
    by reflexivity.
  destruct (buildStack (app (alloc (building key w)))) as [ | s l] eqn:E.
  { destruct (buildStack (app w)); discriminate. }
  rewrite pop_after_alloc.
  assert (Hv : (if Nat.ltb 0 (length (default [] (extenders (app (alloc w)) !! key)))
                then applyExtenders (app (alloc w)) key (VPtr (heap (building key w)) tag)
                else VPtr (heap (building key w)) tag) = v').
  { subst v'. unfold decorated, applyExtenders. simpl.
    destruct (default [] (extenders (app w) !! key)); reflexivity. }
  rewrite Hv. reflexivity.
Qed.

(** X14: a transient binding whose factory allocates gives a fresh object
    on every top-level [Make]: two calls in a row return two different
    pointers, nothing is cached and the key never counts as resolved. *)
Theorem Transient_makes_fresh (fuel fuel' : nat) (abstract tag : string) (w : World)
    (Hbinding : bindings (app w) !! canonical (app w) abstract
                = Some (mkBinding (Closure (FNew tag)) false))
    (Hnone : instances (app w) !! canonical (app w) abstract = None)
    (Hplain : extenders (app w) !! canonical (app w) abstract = None)
    (Htop : buildStack (app w) = []) :
  exists w1 w2,
    Make (S fuel) abstract w = (w1, Ok (VPtr (heap w) tag)) /\
    Make (S fuel') abstract w1 = (w2, Ok (VPtr (S (heap w)) tag)) /\
    VPtr (heap w) tag <> VPtr (S (heap w)) tag /\
    instances (app w2) = instances (app w) /\
    Resolved (app w2) abstract = false.
Proof.
  set (key := canonical (app w) abstract) in *.
  assert (Hstep : forall n w0,
            bindings (app w0) = bindings (app w) -> instances (app w0) = instances (app w) ->
            aliases (app w0) = aliases (app w) -> extenders (app w0) = extenders (app w) ->
            buildStack (app w0) = [] ->
            make (S n) abstract w0
            = (fireAfterResolving key (VPtr (heap w0) tag) (alloc w0),
               Ok (VPtr (heap w0) tag))).
  { intros n w0 Hb Hi Ha He Hs.
    assert (Hk : canonical (app w0) abstract = key)
      by (unfold key, canonical; rewrite Ha; reflexivity).
    rewrite (make_binding_toplevel n abstract w0 (mkBinding (Closure (FNew tag)) false));
      rewrite ?Hk, ?Hb, ?Hi; try assumption.
    unfold runFactory. simpl b_factory. simpl b_singleton.
    rewrite runFactory_new. cbv zeta. unfold decorated. rewrite He, Hplain. reflexivity. }
  eexists; eexists. unfold Make.
  split; [apply Hstep; reflexivity || exact Htop | ].
  split; [apply Hstep; reflexivity || exact Htop | ].
  split; [intros H; injection H as H; lia | ].
  split; [reflexivity | ].
  unfold Resolved. simpl. fold key. rewrite Hnone. reflexivity.
Qed.

Lemma Transient_makes_fresh_witness :
  exists w1 w2,
    Make 1 "job" (fst (Bind 0 "job" (Closure (FNew "Job")) New))
      = (w1, Ok (VPtr 0 "Job")) /\
    Make 1 "job" w1 = (w2, Ok (VPtr 1 "Job")).
Proof.
  destruct (Transient_makes_fresh 0 0 "job" "Job"
              (fst (Bind 0 "job" (Closure (FNew "Job")) New))
              eq_refl eq_refl eq_refl eq_refl) as (w1 & w2 & H1 & H2 & _).
  exists w1, w2. split; [exact H1 | exact H2].
Defined.

(** X15: two names with the same canonical key share one singleton: when
    the key has a singleton binding and a top-level [Make] under one name
    returns, [Make] under the other name returns the same instance and
    runs nothing. *)
Theorem Singleton_shared_by_names (fuel fuel' : nat) (a b : string) (f : Factory)
    (w w1 : World) (v : value)
    (Hbinding : bindings (app w) !! canonical (app w) a = Some (mkBinding f true))
    (Hnone : instances (app w) !! canonical (app w) a = None)
    (Htop : buildStack (app w) = [])
    (Hfirst : Make (S fuel) a w = (w1, Ok v))
    (Hname : canonical (app w1) b = canonical (app w) a) :
  Make (S fuel') b w1 = (w1, Ok v).
Proof.
  unfold Make in *.
  rewrite (make_binding_toplevel fuel a w _ Hnone Htop Hbinding) in Hfirst.
  apply runFactory_singleton_caches in Hfirst.
  apply make_cached. rewrite Hname. exact Hfirst.
Qed.

Lemma Singleton_shared_by_names_witness :
  Make 1 "store" (fst (Make 2 "cache"
     (fst (Alias "cache" "store"
        (fst (Singleton 0 "cache" (Closure (FNew "Redis")) New))))))
  = (fst (Make 2 "cache"
       (fst (Alias "cache" "store"
          (fst (Singleton 0 "cache" (Closure (FNew "Redis")) New))))),
     Ok (VPtr 0 "Redis")).
Proof.
  apply (Singleton_shared_by_names 1 0 "cache" "store" (Closure (FNew "Redis"))
           (fst (Alias "cache" "store"
              (fst (Singleton 0 "cache" (Closure (FNew "Redis")) New)))));
    vm_compute; reflexivity.
Defined.

(** ** Decoration and observers at resolution *)

(** X16: an extender added before the key is resolved joins the end of
    the chain and notifies nobody; the next top-level [Make] of a bound
    value passes it through the old chain and then the new extender, and
    the after-resolving callbacks are told the canonical key, not the name
    that was asked for, once each, in registration order. *)
Theorem Extend_then_Make (fuel : nat) (abstract : string) (d : extender) (v : value)
    (singleton : bool) (w : World)
    (Hbinding : bindings (app w) !! canonical (app w) abstract
                = Some (mkBinding (Closure (FReturn v)) singleton))
    (Hnone : instances (app w) !! canonical (app w) abstract = None)
    (Htop : buildStack (app w) = []) :
  let key := canonical (app w) abstract in
  let v' := d (decorated w key v) in
  trace (Extend abstract d w) = trace w /\
  snd (Make (S fuel) abstract (Extend abstract d w)) = Ok v' /\
  trace (fst (Make (S fuel) abstract (Extend abstract d w)))
  = trace w ++ map (fun cb => EvResolved cb key v') (afterResolving (app w)) /\
  instances (app (fst (Make (S fuel) abstract (Extend abstract d w)))) !! key
  = if singleton then Some v' else None.
Proof.
  intros key v'.
  rewrite (Extend_uncached abstract d w Hnone). fold key.
  set (w1 := on_app _ w).
  split; [reflexivity | ].
  assert (Hrun : Make (S fuel) abstract w1
                 = runFactory fuel key (Closure (FReturn v)) singleton w1).
  { unfold Make.
    rewrite (make_binding_toplevel fuel abstract w1 _ Hnone Htop Hbinding).
    reflexivity. }
  rewrite Hrun. unfold runFactory. rewrite runFactory_value. cbv zeta.
  assert (Hv : fold_left (fun x (e : extender) => e x)
                 (default [] (extenders (app w1) !! key)) v = v').
  { unfold w1. simpl. rewrite lookup_insert_eq. simpl.
    rewrite fold_left_app. reflexivity. }
  rewrite Hv. split; [reflexivity | split].
  - destruct singleton; reflexivity.
  - destruct singleton; simpl.
    + apply lookup_insert_eq.
    + exact Hnone.
Qed.

Lemma Extend_then_Make_witness :
  snd (Make 1 "store"
         (Extend "store" wrapB
            (Extend "cache" wrapA
               (fst (Alias "cache" "store"
                  (fst (Bind 0 "cache" (Closure (FReturn (VStr "redis"))) New)))))))
  = Ok (VWrap "B" (VWrap "A" (VStr "redis"))).
Proof.
  set (w := Extend "cache" wrapA
              (fst (Alias "cache" "store"
                 (fst (Bind 0 "cache" (Closure (FReturn (VStr "redis"))) New))))).
  destruct (Extend_then_Make 0 "store" wrapB (VStr "redis") false w
              eq_refl eq_refl eq_refl) as (_ & H & _).
  rewrite H. reflexivity.
Defined.

(** X17: contextual entries are filed and looked up under the name given to
    [Needs] and to [Make], not under the canonical key: [Give] replaces the
    entry of its own pair and leaves every other pair alone, and while the
    consumer is being built a [Make] of the dependency through another
    name of the same key does not see the entry and is answered by the
    registered binding. *)
Theorem Contextual_is_keyed_by_name (fuel : nat) (consumer needed other : string)
    (f : Factory) (b : binding) (w : World)
    (Hother : other <> needed)
    (Hsame : canonical (app w) other = canonical (app w) needed)
    (Hfree : getContextual (app w) consumer other = Nil)
    (Hbuilding : last (buildStack (app w)) = Some consumer)
    (Hnone : instances (app w) !! canonical (app w) needed = None)
    (Hbinding : bindings (app w) !! canonical (app w) needed = Some b)
    (Hf : Factory_is_nil f = false) :
  let w' := Give consumer needed f w in
  getContextual (app w') consumer needed = f /\
  (forall c n, (c, n) <> (consumer, needed) ->
     getContextual (app w') c n = getContextual (app w) c n) /\
  Make (S fuel) needed w'
  = runFactory fuel (canonical (app w) needed) f false w' /\
  Make (S fuel) other w'
  = runFactory fuel (canonical (app w) needed) (b_factory b) (b_singleton b) w'.
Proof.
  intros w'.
  assert (Hget : getContextual (app w') consumer needed = f).
  { unfold getContextual. simpl. rewrite lookup_insert_eq, lookup_insert_eq. reflexivity. }
  assert (Hrest : forall c n, (c, n) <> (consumer, needed) ->
            getContextual (app w') c n = getContextual (app w) c n).
  { intros c n Hne. unfold getContextual. simpl.
    destruct (decide (consumer = c)) as [-> | Hc].
    - rewrite lookup_insert_eq.
      assert (Hn : needed <> n) by congruence.
      rewrite lookup_insert_ne by exact Hn.
      destruct (contextual (app w) !! c); reflexivity.
    - rewrite lookup_insert_ne by exact Hc. reflexivity. }
  split; [exact Hget | split; [exact Hrest | ]].
  unfold Make. rewrite !make_unfold. cbv zeta.
  change (canonical (app w') needed) with (canonical (app w) needed).
  change (canonical (app w') other) with (canonical (app w) other).
  change (instances (app w')) with (instances (app w)).
  change (bindings (app w')) with (bindings (app w)).
  rewrite Hsame, Hnone.
  unfold contextual_for.
  change (buildStack (app w')) with (buildStack (app w)). rewrite Hbuilding.
  rewrite Hget, Hf. cbn [negb].
  rewrite (Hrest consumer other) by congruence.
  rewrite Hfree. cbn [Factory_is_nil negb]. rewrite Hbinding.
  split; reflexivity.
Qed.

Lemma Contextual_is_keyed_by_name_witness :
  snd (Make 2 "Dep" (GiveValue "Consumer" "Dep" (VInt 42)
         (building "Consumer"
            (fst (Alias "Dep" "Dependency"
               (fst (Bind 0 "Dep" (Closure (FReturn (VStr "default"))) New))))))) = Ok (VInt 42) /\
  snd (Make 2 "Dependency" (GiveValue "Consumer" "Dep" (VInt 42)
         (building "Consumer"
            (fst (Alias "Dep" "Dependency"
               (fst (Bind 0 "Dep" (Closure (FReturn (VStr "default"))) New)))))))
  = Ok (VStr "default").
Proof.
  set (w := building "Consumer"
              (fst (Alias "Dep" "Dependency"
                 (fst (Bind 0 "Dep" (Closure (FReturn (VStr "default"))) New))))).
  assert (Hne : "Dependency" <> "Dep") by discriminate.
  destruct (Contextual_is_keyed_by_name 1 "Consumer" "Dep" "Dependency"
              (Closure (FReturn (VInt 42)))
              (mkBinding (Closure (FReturn (VStr "default"))) false) w
              Hne eq_refl eq_refl eq_refl eq_refl eq_refl eq_refl)
    as (_ & _ & H1 & H2).
  unfold GiveValue. rewrite H1, H2. split; vm_compute; reflexivity.
Defined.

(** ** Binding over a resolved key *)

(** X18: binding a value factory over a key that holds a non-nil cached
    instance rebuilds the key at once, outside a build: the after-resolving
    callbacks see the new value, then the rebound callbacks filed under the
    name given are called once each, in registration order, with it; the
    new value is cached if the binding is a singleton and not otherwise.
    When the key holds no instance, or a nil one, the factory is not run
    and nobody is notified. *)
Theorem Rebind_rebuilds_and_notifies (fuel : nat) (abstract : string) (v : value)
    (singleton : bool) (w : World)
    (Htop : buildStack (app w) = []) :
  let key := canonical (app w) abstract in
  let v' := decorated w key v in
  let w' := fst (bind (S fuel) abstract (Closure (FReturn v)) singleton w) in
  snd (bind (S fuel) abstract (Closure (FReturn v)) singleton w) = Ok VNil /\
  bindings (app w') !! key = Some (mkBinding (Closure (FReturn v)) singleton) /\
  match instances (app w) !! key with
  | Some VNil | None =>
      trace w' = trace w /\ instances (app w') !! key = None
  | Some _ =>
      trace w' = trace w
                 ++ map (fun cb => EvResolved cb key v') (afterResolving (app w))
                 ++ map (fun cb => EvRebound cb v')
                        (default [] (reboundCallbacks (app w) !! abstract)) /\
      instances (app w') !! key = if singleton then Some v' else None
  end.
Proof.
  intros key v' w'. subst w'.
  pose proof (bind_spec (S fuel) abstract (Closure (FReturn v)) singleton w) as HB.
  cbv zeta in HB. fold key in HB. destruct HB as (Hb2 & Hi2 & Hbind).
  set (w2 := bind_installed abstract (Closure (FReturn v)) singleton w) in *.
  assert (Hrebuild :
    make (S fuel) abstract w2 >>= (fun w3 v0 => ok (fireRebound abstract v0 w3))
    = (fireRebound abstract v'
         (fireAfterResolving key v'
            (if singleton then on_app (set_instances (<[key := v']>)) w2 else w2)),
       Ok VNil)).
  { rewrite (make_binding_toplevel fuel abstract w2 _ Hi2 Htop Hb2).
    unfold runFactory. simpl b_factory. simpl b_singleton.
    change (canonical (app w2) abstract) with key.
    rewrite runFactory_value. reflexivity. }
  rewrite Hrebuild in Hbind. rewrite Hbind.
  assert (Hquiet : snd (w2, Ok VNil) = Ok VNil /\
                   bindings (app (fst (w2, Ok VNil))) !! key
                   = Some (mkBinding (Closure (FReturn v)) singleton) /\
                   trace (fst (w2, Ok VNil)) = trace w /\
                   instances (app (fst (w2, Ok VNil))) !! key = None)
    by (repeat split; assumption).
  destruct (instances (app w) !! key) as [old | ];
    [ | destruct Hquiet as (? & ? & ? & ?); repeat split; assumption].
  destruct old;
    try (destruct Hquiet as (? & ? & ? & ?); repeat split; assumption);
    (split; [reflexivity | split;
      [destruct singleton; simpl; fold key; apply lookup_insert_eq || exact Hb2 | split;
        [destruct singleton; simpl; rewrite <- app_assoc; reflexivity
        | destruct singleton; simpl; [apply lookup_insert_eq | exact Hi2] ] ] ]).
Qed.

Lemma Rebind_rebuilds_and_notifies_witness :
  trace (fst (Bind 1 "k" (Closure (FReturn (VStr "new")))
                (Rebinding "k" 5 singleton_resolved)))
  = trace singleton_resolved ++ [EvRebound 5 (VStr "new")] /\
  Resolved (app (fst (Bind 1 "k" (Closure (FReturn (VStr "new")))
                        (Rebinding "k" 5 singleton_resolved)))) "k" = false.
Proof.
  destruct (Rebind_rebuilds_and_notifies 0 "k" (VStr "new") false
              (Rebinding "k" 5 singleton_resolved) eq_refl) as (_ & _ & H).
  vm_compute in H. destruct H as [Ht Hi].
  split; [exact Ht | ].
  vm_compute. reflexivity.
Defined.

(** ** Typed retrieval *)

(** X19: [Resolve] and [MustResolve] differ only on a value of the wrong
    type, where [Resolve] panics with a type mismatch and [MustResolve]
    returns the zero value and false; a failure of [Make] goes through both
    unchanged, so [MustResolve] does panic for a key that is not
    registered; neither changes the state beyond what [Make] does. *)
Theorem MustResolve_panics_when_unbound (T : value -> bool) (fuel : nat)
    (abstract : string) (w : World) :
  fst (Resolve T fuel abstract w) = fst (Make fuel abstract w) /\
  fst (MustResolve T fuel abstract w) = fst (Make fuel abstract w) /\
  (forall v, snd (Make fuel abstract w) = Ok v ->
     snd (Resolve T fuel abstract w)
       = (if T v then Typed v else TypeMismatch abstract v) /\
     snd (MustResolve T fuel abstract w)
       = MustOk (if T v then Some v else None)) /\
  (forall e, snd (Make fuel abstract w) = Panicked e ->
     snd (Resolve T fuel abstract w) = ResolvePanicked e /\
     snd (MustResolve T fuel abstract w) = MustPanicked e) /\
  (buildStack (app w) = [] -> Bound (app w) abstract = false ->
     MustResolve T (S fuel) abstract w
     = (w, MustPanicked (UnregisteredAbstract abstract))).
Proof.
  unfold Resolve, MustResolve.
  split; [ | split; [ | split; [ | split]]].
  - destruct (Make fuel abstract w) as [w1 [v | e | | ]]; try reflexivity.
    destruct (T v); reflexivity.
  - destruct (Make fuel abstract w) as [w1 [v | e | | ]]; try reflexivity.
    destruct (T v); reflexivity.
  - intros v Hv. destruct (Make fuel abstract w) as [w1 o]. simpl in Hv. subst o.
    destruct (T v); split; reflexivity.
  - intros e He. destruct (Make fuel abstract w) as [w1 o]. simpl in He. subst o.
    split; reflexivity.
  - intros Htop Hunbound. unfold Make. rewrite make_unfold. cbv zeta.
    unfold Bound in Hunbound. apply orb_false_iff in Hunbound as [Hb Hi].
    apply bool_decide_eq_false in Hb. apply bool_decide_eq_false in Hi.
    destruct (instances (app w) !! canonical (app w) abstract) as [i | ];
      [exfalso; apply Hi; eexists; reflexivity | ].
    rewrite (contextual_for_toplevel abstract w Htop). cbn [Factory_is_nil negb].
    destruct (bindings (app w) !! canonical (app w) abstract) as [b | ];
      [exfalso; apply Hb; eexists; reflexivity | reflexivity].
Qed.

(** ** Flushing under a registry *)

(** X20: [Flush] drops the bindings a provider made and the lazy bindings
    of a deferred one, and the registry does not notice: after [Register]
    and [Flush] nothing the provider offers can be resolved, and
    registering the provider again does nothing, because it still counts
    as registered. *)
Theorem Flush_orphans_providers (fuel fuel' fuel'' : nat) (p : ServiceProvider)
    (abstract : string) (w : World) :
  let w' := Flush (fst (Register fuel p w)) in
  Register fuel' p w' = (w', Ok VNil) /\
  Make (S fuel'') abstract w' = (w', Panicked (UnregisteredAbstract abstract)).
Proof.
  intros w'. split.
  - destruct (Register_frame fuel p w) as (_ & _ & Hin).
    destruct (Register_frame fuel' p w') as (_ & Hnoop & _).
    apply Hnoop. exact Hin.
  - apply make_after_Flush.
Qed.

(** ** A provider of the application *)

Lemma config_resolves (fuel fuel' : nat) (w' : World) :
  bindings (app w') !! "config" = Some (mkBinding (Closure (FNew "config.Config")) true) ->
  instances (app w') !! "config" = None ->
  aliases (app w') !! "configuration" = Some "config" ->
  aliases (app w') !! "config" = None ->
  buildStack (app w') = [] ->
  let cfg := decorated w' "config" (VPtr (heap w') "config.Config") in
  exists w1,
    Make (S fuel) "configuration" w' = (w1, Ok cfg) /\
    Make (S fuel') "config" w1 = (w1, Ok cfg).
Proof.
  intros Hb Hi Ha Hc Hs cfg.
  assert (Hk : canonical (app w') "configuration" = "config")
    by (unfold canonical; rewrite Ha; reflexivity).
  assert (Hk' : canonical (app w') "config" = "config")
    by (unfold canonical; rewrite Hc; reflexivity).
  unfold Make.
  rewrite (make_binding_toplevel fuel "configuration" w'
             (mkBinding (Closure (FNew "config.Config")) true));
    rewrite ?Hk; try assumption.
  unfold runFactory. simpl b_factory. simpl b_singleton.
  rewrite runFactory_new. cbv zeta. fold cfg.
  eexists. split; [reflexivity | ].
  apply make_cached.
  change (canonical (app (fireAfterResolving "config" cfg
            (on_app (set_instances (<["config" := cfg]>)) (alloc w')))) "config")
    with (canonical (app w') "config").
  rewrite Hk'. simpl. apply lookup_insert_eq.
Qed.

(** X21: registering [ConfigServiceProvider] on a container where "config"
    is neither aliased nor resolved makes the provider eager, and from then
    on "configuration" and "config" name one singleton: the first top-level
    [Make] of "configuration" loads the configuration, and [Make] of
    "config" returns that same object without loading again. *)
Theorem ConfigServiceProvider_names_one_singleton (fuel fuel' fuel'' id : nat) (w : World)
    (Hnew : id ∉ registered (reg w))
    (Hplain : aliases (app w) !! "config" = None)
    (Hnone : instances (app w) !! "config" = None)
    (Htop : buildStack (app w) = []) :
  let cfg := decorated w "config" (VPtr (heap w) "config.Config") in
  exists w' w1,
    Register fuel (ConfigServiceProvider id) w = (w', Ok VNil) /\
    Providers w' = Providers w ++ [ConfigServiceProvider id] /\
    Make (S fuel') "configuration" w' = (w1, Ok cfg) /\
    Make (S fuel'') "config" w1 = (w1, Ok cfg).
Proof.
  intros cfg.
  assert (Hk : canonical (app w) "config" = "config")
    by (unfold canonical; rewrite Hplain; reflexivity).
  assert (Hne : "config" <> "configuration") by discriminate.
  unfold Register, Register_.
  rewrite bool_decide_eq_false_2 by exact Hnew.
  cbn [IsDeferred ConfigServiceProvider].
  unfold provider_Register. cbn [RegisterBody ConfigServiceProvider actions_ action_].
  match goal with |- context [bind_ _ _ _ _ ?w0] => set (w1 := w0) end.
  pose proof (bind_spec fuel "config" (Closure (FNew "config.Config")) true w1) as HB.
  cbv zeta in HB.
  change (canonical (app w1) "config") with (canonical (app w) "config") in HB.
  change (instances (app w1)) with (instances (app w)) in HB.
  rewrite Hk, Hnone in HB. destruct HB as (Hb2 & Hi2 & Hbind).
  unfold bind in Hbind. rewrite Hbind. cbn [and_then].
  rewrite (Alias_ok "config" "configuration" _ Hne). cbn [and_then ok].
  match goal with |- context [provider_Boot _ _ ?w0] => set (w4 := w0) end.
  assert (Hfacts : forall wf,
            app wf = app w4 -> heap wf = heap w ->
            exists w5, Make (S fuel') "configuration" wf = (w5, Ok cfg) /\
                       Make (S fuel'') "config" w5 = (w5, Ok cfg)).
  { intros wf Happ Hheap.
    assert (Hcfg : cfg = decorated wf "config" (VPtr (heap wf) "config.Config")).
    { unfold cfg, decorated. rewrite Happ, Hheap. reflexivity. }
    rewrite Hcfg. apply config_resolves; rewrite Happ.
    - exact Hb2.
    - exact Hi2.
    - simpl. rewrite lookup_insert_eq. unfold canonical. simpl. rewrite Hplain. reflexivity.
    - simpl. rewrite lookup_insert_ne by congruence. exact Hplain.
    - exact Htop. }
  destruct (booted (reg w4)) eqn:Hbooted.
  - unfold provider_Boot. cbn [BootBody ConfigServiceProvider actions_].
    destruct (Hfacts (emit [EvBoot id] w4) eq_refl eq_refl) as (w5 & H1 & H2).
    eexists. exists w5. split; [reflexivity | ].
    split; [reflexivity | split; assumption].
  - destruct (Hfacts w4 eq_refl eq_refl) as (w5 & H1 & H2).
    eexists. exists w5. split; [reflexivity | ].
    split; [reflexivity | split; assumption].
Qed.

Lemma ConfigServiceProvider_names_one_singleton_witness :
  exists w' w1,
    Register 0 (ConfigServiceProvider 1) New = (w', Ok VNil) /\
    Providers w' = Providers New ++ [ConfigServiceProvider 1] /\
    Make 1 "configuration" w' = (w1, Ok (VPtr 0 "config.Config")) /\
    Make 1 "config" w1 = (w1, Ok (VPtr 0 "config.Config")).
Proof.
  apply (ConfigServiceProvider_names_one_singleton 0 0 0 1 New);
    try reflexivity.
  exact (not_elem_of_empty (C := gset nat) 1%nat).
Defined.

(** ** The first resolution of a deferred key *)

Lemma lazy_registered (fuel id : nat) (abs : string) (v : value) (w : World) :
  id ∉ registered (reg w) ->
  aliases (app w) !! abs = None ->
  instances (app w) !! abs = None ->
  let p := lazy_provider id abs v in
  Register fuel p w
  = (bind_installed abs (Deferred p abs) false
       (on_reg (mark_deferred p)
          (on_reg (fun r => mkRegistry (eager r) (deferred r) (booted r)
                              ({[id]} ∪ registered r)) w)),
     Ok VNil).
Proof.
  intros Hnew Hplain Hnone p.
  unfold Register, Register_.
  rewrite bool_decide_eq_false_2 by exact Hnew.
  cbn [IsDeferred p lazy_provider]. unfold interceptDeferred_.
  cbn [Provides p lazy_provider intercept_loop pid].
  match goal with |- context [bind_ _ _ _ _ ?w0] => set (w2 := w0) end.
  pose proof (bind_spec fuel abs (Deferred p abs) false w2) as HB. cbv zeta in HB.
  assert (Hk : canonical (app w2) abs = abs)
    by (unfold canonical; simpl; rewrite Hplain; reflexivity).
  rewrite Hk in HB. change (instances (app w2)) with (instances (app w)) in HB.
  rewrite Hnone in HB. destruct HB as (_ & _ & Hbind).
  unfold bind in Hbind. fold p. rewrite Hbind. reflexivity.
Qed.

Lemma chain_guard (l : list extender) (x : value) :
  (if Nat.ltb 0 (length l) then fold_left (fun i (e : extender) => e i) l x else x)
  = fold_left (fun i (e : extender) => e i) l x.
Proof. destruct l; reflexivity. Qed.

Lemma lazy_first_make (n id : nat) (abs : string) (v : value) (w : World) :
  aliases (app w) !! abs = None ->
  instances (app w) !! abs = None ->
  buildStack (app w) = [] ->
  getContextual (app w) abs abs = Nil ->
  let p := lazy_provider id abs v in
  let once := decorated w abs v in
  let twice := decorated w abs once in
  let w' := bind_installed abs (Deferred p abs) false
       (on_reg (mark_deferred p)
          (on_reg (fun r => mkRegistry (eager r) (deferred r) (booted r)
                              ({[id]} ∪ registered r)) w)) in
  exists w1,
    Make (S (S n)) abs w' = (w1, Ok twice) /\
    trace w1 = trace w ++ [EvRegister id]
               ++ (if booted (reg w) then [EvBoot id] else [])
               ++ map (fun cb => EvResolved cb abs once) (afterResolving (app w))
               ++ map (fun cb => EvResolved cb abs twice) (afterResolving (app w)) /\
    instances (app w1) !! abs = Some once /\
    aliases (app w1) = aliases (app w).
Proof.
  intros Hplain Hnone Htop Hctx p once twice w'.
  assert (Hk : forall w0, aliases (app w0) = aliases (app w) -> canonical (app w0) abs = abs).
  { intros w0 Ha. unfold canonical. rewrite Ha, Hplain. reflexivity. }
  unfold Make.
  rewrite (make_binding_toplevel (S n) abs w' (mkBinding (Deferred p abs) false)).
  2: { rewrite (Hk w' eq_refl). simpl. rewrite (Hk w eq_refl). apply lookup_delete_eq. }
  2: { exact Htop. }
  2: { rewrite (Hk w' eq_refl). simpl. rewrite (Hk w eq_refl). apply lookup_insert_eq. }
  rewrite (Hk w' eq_refl). cbn [b_factory b_singleton].
  unfold runFactory, runFactory_. fold (building abs w'). cbn [call_].
  rewrite deferred_closure_pending.
  2: { exists p. simpl. apply lookup_insert_eq. }
  unfold provider_Register. cbn [RegisterBody p lazy_provider actions_ action_ pid].
  match goal with |- context [bind_ _ _ _ _ ?w0] => set (wr := w0) end.
  pose proof (bind_spec (S n) abs (Closure (FReturn v)) true wr) as HB. cbv zeta in HB.
  rewrite (Hk wr eq_refl) in HB.
  assert (Hir : instances (app wr) !! abs = None).
  { simpl. rewrite (Hk w eq_refl). apply lookup_delete_eq. }
  rewrite Hir in HB. destruct HB as (Hb5 & Hi5 & Hbind).
  unfold bind in Hbind. rewrite Hbind. cbn [and_then ok].
  set (w5 := bind_installed abs (Closure (FReturn v)) true wr) in *.
  assert (Hinner : forall wx, app wx = app w5 ->
            make (S n) abs wx
            = (fireAfterResolving abs once (on_app (set_instances (<[abs := once]>)) wx),
               Ok once)).
  { intros wx Happ. rewrite make_unfold. cbv zeta.
    assert (Hkx : canonical (app wx) abs = abs) by (apply Hk; rewrite Happ; reflexivity).
    rewrite Hkx, Happ, Hi5.
    assert (Hcx : contextual_for wx abs = Nil).
    { unfold contextual_for. rewrite Happ. simpl. rewrite Htop. simpl. exact Hctx. }
    rewrite Hcx. cbn [Factory_is_nil negb]. rewrite Hb5.
    cbn [b_factory b_singleton]. unfold runFactory. rewrite runFactory_value.
    cbv zeta. rewrite Happ. reflexivity. }
  assert (Houter : forall wx, app wx = app w5 ->
            exists w1,
              (make (S n) abs wx >>= fun w2 instance =>
                 match buildStack (app w2) with
                 | [] => (w2, Panicked SliceBounds)
                 | _ :: _ =>
                   let w3 := on_app (set_buildStack (@removelast string)) w2 in
                   let exts : list extender := default [] (extenders (app w3) !! abs) in
                   let instance :=
                     if Nat.ltb 0 (length exts) then applyExtenders (app w3) abs instance
                     else instance in
                   let w4 := if false
                             then on_app (set_instances (<[abs := instance]>)) w3
                             else w3 in
                   (fireAfterResolving abs instance w4, Ok instance)
                 end) = (w1, Ok twice) /\
              trace w1 = trace wx
                 ++ map (fun cb => EvResolved cb abs once) (afterResolving (app w))
                 ++ map (fun cb => EvResolved cb abs twice) (afterResolving (app w)) /\
              instances (app w1) !! abs = Some once /\
              aliases (app w1) = aliases (app w)).
  { intros wx Happ. rewrite (Hinner wx Happ). cbn [and_then].
    assert (Hst : buildStack (app (fireAfterResolving abs once
                     (on_app (set_instances (<[abs := once]>)) wx))) = [abs]).
    { simpl. rewrite Happ. simpl. rewrite Htop. reflexivity. }
    rewrite Hst. cbv zeta.
    assert (Hv : (if Nat.ltb 0 (length (default [] (extenders (app
                     (on_app (set_buildStack (@removelast string))
                        (fireAfterResolving abs once
                           (on_app (set_instances (<[abs := once]>)) wx)))) !! abs)))
                  then applyExtenders (app
                     (on_app (set_buildStack (@removelast string))
                        (fireAfterResolving abs once
                           (on_app (set_instances (<[abs := once]>)) wx)))) abs once
                  else once) = twice).
    { unfold applyExtenders. rewrite chain_guard. simpl. rewrite Happ. reflexivity. }
    rewrite Hv. eexists. split; [reflexivity | ].
    simpl. rewrite Happ. simpl.
    split; [rewrite <- app_assoc; reflexivity | ].
    split; [apply lookup_insert_eq | reflexivity]. }
  match goal with |- context [provider_Boot _ _ ?w0] => set (w6 := w0) end.
  change (booted (reg w6)) with (booted (reg w)).
  destruct (booted (reg w)).
  - unfold provider_Boot. cbn [BootBody p lazy_provider actions_ and_then ok pid].
    destruct (Houter (emit [EvBoot id] w6) eq_refl) as (w1 & Hrun & Ht & Hi & Ha).
    exists w1. split; [exact Hrun | ].
    split; [ | split; assumption].
    rewrite Ht. simpl. rewrite <- !app_assoc. reflexivity.
  - cbn [and_then ok].
    destruct (Houter w6 eq_refl) as (w1 & Hrun & Ht & Hi & Ha).
    exists w1. split; [exact Hrun | ].
    split; [ | split; assumption].
    rewrite Ht. simpl. rewrite <- !app_assoc. reflexivity.
Qed.

(** X22: the first top-level [Make] of the key of a deferred one-service
    provider registers the provider (and boots it, if the registry has
    booted) and resolves the key twice over: the lazy closure returns the
    singleton that the provider has just bound, already decorated and
    cached, and [runFactory] then decorates the closure's result again and
    fires the after-resolving callbacks a second time.  So with extenders on
    the key the first [Make] returns a value decorated twice, and every
    later [Make] returns the cached value decorated once. *)
Theorem Deferred_first_Make_decorates_twice (fuel n m id : nat) (abs : string)
    (v : value) (w : World)
    (Hnew : id ∉ registered (reg w))
    (Hplain : aliases (app w) !! abs = None)
    (Hnone : instances (app w) !! abs = None)
    (Htop : buildStack (app w) = [])
    (Hctx : getContextual (app w) abs abs = Nil) :
  let p := lazy_provider id abs v in
  let once := decorated w abs v in
  let twice := decorated w abs once in
  exists w' w1,
    Register fuel p w = (w', Ok VNil) /\
    trace w' = trace w /\
    Make (S (S n)) abs w' = (w1, Ok twice) /\
    trace w1 = trace w ++ [EvRegister id]
               ++ (if booted (reg w) then [EvBoot id] else [])
               ++ map (fun cb => EvResolved cb abs once) (afterResolving (app w))
               ++ map (fun cb => EvResolved cb abs twice) (afterResolving (app w)) /\
    Make (S m) abs w1 = (w1, Ok once).
Proof.
  intros p once twice.
  eexists. 
  destruct (lazy_first_make n id abs v w Hplain Hnone Htop Hctx)
    as (w1 & Hrun & Ht & Hi & Ha).
  exists w1.
  split; [apply (lazy_registered fuel id abs v w Hnew Hplain Hnone) | ].
  split; [reflexivity | ].
  split; [exact Hrun | ].
  split; [exact Ht | ].
  apply make_cached.
  assert (Hk : canonical (app w1) abs = abs)
    by (unfold canonical; rewrite Ha, Hplain; reflexivity).
  rewrite Hk. exact Hi.
Qed.

Lemma Deferred_first_Make_decorates_twice_witness :
  exists w' w1,
    Register 0 (lazy_provider 4 "cache" (VStr "lazy")) (Extend "cache" wrapA New)
      = (w', Ok VNil) /\
    Make 2 "cache" w' = (w1, Ok (VWrap "A" (VWrap "A" (VStr "lazy")))) /\
    Make 1 "cache" w1 = (w1, Ok (VWrap "A" (VStr "lazy"))).
Proof.
  assert (Hnew : 4%nat ∉ registered (reg (Extend "cache" wrapA New)))
    by exact (not_elem_of_empty (C := gset nat) 4%nat).
  destruct (Deferred_first_Make_decorates_twice 0 0 0 4 "cache" (VStr "lazy")
              (Extend "cache" wrapA New) Hnew eq_refl eq_refl eq_refl eq_refl)
    as (w' & w1 & Hreg & _ & H1 & _ & H2).
  exists w', w1. split; [exact Hreg | split; [exact H1 | exact H2]].
Defined.

(** ** The registry invariant along a run *)

Lemma frame_wf (w : World) (res : result) :
  registry_wf w ->
  frame_post (fun q => q ∈ registered (reg w) /\ q ∉ map pid (eager (reg w))) w res ->
  registry_wf (fst res).
Proof.
  intros Hwf (He & _ & Hr & Hl & _).
  pose proof (registry_wf_pids w Hwf) as Hsub. destruct Hwf as (Hnd & _ & _).
  apply (registry_wf_intro (fst res) (map pid (eager (reg w))) (registered (reg w)));
    try assumption.
  rewrite He. reflexivity.
Qed.

Lemma boot_loop_frame_lazy (Q : nat -> Prop) (fuel : nat) (ps : list ServiceProvider) :
  forall w, lazy_all Q w ->
    eager (reg (fst (boot_loop (make fuel) ps w))) = eager (reg w) /\
    registered (reg (fst (boot_loop (make fuel) ps w))) = registered (reg w) /\
    lazy_all Q (fst (boot_loop (make fuel) ps w)).
Proof.
  induction ps as [ | p ps IH]; intros w Hl; simpl;
    [split; [reflexivity | split; [reflexivity | exact Hl]] | ].
  unfold provider_Boot.
  match goal with |- context [actions_ _ (BootBody p) ?w0] => set (w1 := w0) end.
  assert (Hl1 : lazy_all Q w1)
    by (apply (lazy_all_tables Q w); [reflexivity | reflexivity | exact Hl]).
  destruct (actions_run_frame Q fuel (BootBody p) w1 Hl1) as (He & _ & Hr & Hl2 & _).
  destruct (actions_ (make fuel) (BootBody p) w1) as [w2 [v2 | e | | ]];
    simpl in He, Hr, Hl2 |- *;
    try (split; [exact He | split; [exact Hr | exact Hl2]]).
  destruct (IH w2 Hl2) as (He' & Hr' & Hl').
  split; [congruence | split; [congruence | exact Hl']].
Qed.

(** X23: the registry and the container stay consistent along every run:
    [Register], [Boot] and [Make] keep the invariant that the eager
    providers are pairwise distinct and all registered, and that the lazy
    closures held by the container belong to registered providers that
    are not eager, however the calls end; in particular [Providers] never
    lists a provider twice. *)
Theorem Registry_invariant_is_kept (fuel : nat) (p : ServiceProvider)
    (abstract : string) (w : World)
    (Hwf : registry_wf w) :
  registry_wf (fst (Register fuel p w)) /\
  registry_wf (fst (Boot fuel w)) /\
  registry_wf (fst (Make fuel abstract w)) /\
  NoDup (map pid (Providers w)).
Proof.
  split; [ | split; [ | split]].
  - apply (Register_wf fuel p w _ (snd (Register fuel p w)) Hwf).
    apply surjective_pairing.
  - unfold Boot, Boot_. destruct (booted (reg w)); [exact Hwf | ].
    cbv zeta.
    match goal with |- context [boot_loop _ _ ?w0] => set (w1 := w0) end.
    pose proof (registry_wf_pids w Hwf) as Hsub.
    destruct Hwf as (Hnd & _ & Hl).
    assert (Hl1 : lazy_all (fun q => q ∈ registered (reg w) /\ q ∉ map pid (eager (reg w))) w1)
      by (apply (lazy_all_tables _ w); [reflexivity | reflexivity | exact Hl]).
    destruct (boot_loop_frame_lazy _ fuel (eager (reg w1)) w1 Hl1) as (He & Hr & Hl').
    apply (registry_wf_intro _ (map pid (eager (reg w))) (registered (reg w)));
      try assumption.
    rewrite He. reflexivity.
  - apply (frame_wf w); [exact Hwf | ].
    apply make_frame. destruct Hwf as (_ & _ & Hl). exact Hl.
  - destruct Hwf as (Hnd & _). exact Hnd.
Qed.

Lemma Registry_invariant_is_kept_witness :
  registry_wf (fst (Register 3 multi_deferred New)) /\
  registry_wf (fst (Boot 3 New)) /\
  registry_wf (fst (Make 3 "container" New)) /\
  NoDup (map pid (Providers New)).
Proof.
  apply (Registry_invariant_is_kept 3 multi_deferred "container" New registry_wf_New).
Defined.
